(** * Payment settlement and payout handlers of LocalServiceProviderBackend

    A shallow embedding of the three payment handlers of the backend:
    - [processPaymentFromCustomerToMe] and [processPaymentFromMeToProvider]
      (src/controllers/paymentController.js),
    - [processPayment] (the customer controller, src/unnamed/part_000).

    The document store is a record of collections (association lists, so that
    [findOne] returns the first matching document as MongoDB's natural order
    does).  The remote gateway (Razorpay) and the HMAC digest are supplied by
    an environment record; every remote call is appended to a call log.  A
    handler runs in a small state-and-error monad over the store and the log.
    [Bill.amount] and the gateway's [order.amount] are JavaScript Numbers,
    modelled as binary64 floats ([PrimFloat.float]), so that [bill.amount *
    100] rounds as it does in JavaScript; the Payment and Transfer amounts
    are integers ([Z]) of paise, which doubles hold exactly. *)

From Stdlib Require Import String ZArith List Bool Lia QArith.
From Stdlib Require Import PrimFloat.
Close Scope Q_scope.
Import ListNotations.
Open Scope string_scope.

(** ** Documents *)

(** [Bill.js]: [status] has enum ['paid', 'unpaid'], default 'unpaid'. *)
Inductive BillStatus := paid | unpaid.

(** A ServiceRequest as read with [.populate('customer')]: [sr_customer] is
    the populated customer's [_id], [None] when the reference is dangling
    (populate yields [null]).  [sr_service] is the unpopulated service ref. *)
Record ServiceRequest := mkServiceRequest {
  sr_id : nat;
  sr_customer : option nat;
  sr_service : nat
}.

Record Bill := mkBill {
  bill_id : nat;
  bill_request : nat;
  bill_amount : PrimFloat.float;
  bill_status : BillStatus
}.

(** The [Payment] model (status is a free string in the handlers). *)
Record Payment := mkPayment {
  payment_id : nat;
  payment_bill : nat;
  payment_amount : Z;
  payment_platform_fee : Z;
  payment_status : string;
  payment_order_id : string;
  payment_gw_payment_id : string;
  payment_method : string
}.

(** The [Transfer] model; [transfer_provider] is [None] when the provider
    reference is [undefined] or does not populate. *)
Record Transfer := mkTransfer {
  transfer_id : nat;
  transfer_payment : nat;
  transfer_provider : option nat;
  transfer_amount : Z;
  transfer_status : string;
  transfer_mode : string
}.

Record ProviderBankDetail := mkProviderBankDetail {
  pbd_provider : nat;
  verification_status : string;
  razorpay_fund_id : string
}.

(** [RazorpayPayment.js], the collection the customer controller's
    [processPayment] would write (it throws before it gets there). *)
Record RazorpayPayment := mkRazorpayPayment {
  rp_bill : nat;
  rp_order_id : string;
  rp_payment_id : string;
  rp_signature : string;
  rp_method : string;
  rp_status : string
}.

Record Store := mkStore {
  requests : list ServiceRequest;
  bills : list Bill;
  payments : list Payment;
  transfers : list Transfer;
  bank_details : list ProviderBankDetail;
  razorpay_payments : list RazorpayPayment;
  next_id : nat  (** source of fresh ObjectIds *)
}.

Definition set_bills (s : Store) (l : list Bill) : Store :=
  mkStore (requests s) l (payments s) (transfers s) (bank_details s)
          (razorpay_payments s) (next_id s).
Definition set_payments (s : Store) (l : list Payment) : Store :=
  mkStore (requests s) (bills s) l (transfers s) (bank_details s)
          (razorpay_payments s) (next_id s).
Definition set_transfers (s : Store) (l : list Transfer) : Store :=
  mkStore (requests s) (bills s) (payments s) l (bank_details s)
          (razorpay_payments s) (next_id s).
Definition set_razorpay_payments (s : Store) (l : list RazorpayPayment) : Store :=
  mkStore (requests s) (bills s) (payments s) (transfers s) (bank_details s)
          l (next_id s).
Definition bump_id (s : Store) : Store :=
  mkStore (requests s) (bills s) (payments s) (transfers s) (bank_details s)
          (razorpay_payments s) (S (next_id s)).

(** ** The remote gateway and the request *)

Record Order := mkOrder {
  order_amount : PrimFloat.float;
  order_method : string
}.

(** Arguments of [razorpay.transfers.create]. *)
Record PayoutReq := mkPayoutReq {
  po_account_number : string;
  po_amount : Z;
  po_currency : string;
  po_mode : string;
  po_purpose : string;
  po_fund_account_id : string;
  po_note_payment_id : nat;
  po_note_provider_id : nat
}.

(** [process.env] and the Razorpay client: [hmac_sha256_hex key msg] is
    [crypto.createHmac('sha256', key).update(msg).digest('hex')] with the
    [crypto] module that paymentController.js requires;
    [orders_fetch] and [transfers_create] answer [None] when the remote
    promise rejects, and [order_fetch_error] and [transfer_create_error] give
    the error it rejects with. *)
Record Env := mkEnv {
  razorpay_secret : string;
  razorpay_account_number : string;
  hmac_sha256_hex : string -> string -> string;
  orders_fetch : string -> option Order;
  transfers_create : PayoutReq -> option string;
  order_fetch_error : string -> string;
  transfer_create_error : PayoutReq -> string
}.

(** Remote calls, with whether they resolved. *)
Inductive Call :=
| OrderFetch (order_id : string) (ok : bool)
| TransferCreate (r : PayoutReq) (ok : bool).

Record World := mkWorld {
  store : Store;
  calls : list Call
}.

(** [req.user.id], [req.params.id] and the three body fields. *)
Record PayReq := mkPayReq {
  user_id : nat;
  params_id : nat;
  body_order_id : option string;
  body_payment_id : option string;
  body_signature : option string
}.

(** A handler either calls [next(new AppError(message, statusCode))], or
    throws (a rejected remote call, a [TypeError], a Mongo error), which
    [catchAsync] forwards to [next] unchanged, or answers 200. *)
Inductive Failure :=
| AppErr (message : string) (statusCode : Z)
| Thrown (what : string).

Inductive Response :=
| SettlementOk (payment : Payment) (transfer : Transfer)
| PayoutOk (fundTransfer : string)
| PaymentOk.

(** ** A state and error monad *)

Definition M (A : Type) := World -> (Failure + A) * World.

Definition ret {A} (a : A) : M A := fun w => (inr a, w).
Definition bind {A B} (m : M A) (k : A -> M B) : M B :=
  fun w => match m w with
           | (inl e, w') => (inl e, w')
           | (inr a, w') => k a w'
           end.
Definition fail {A} (e : Failure) : M A := fun w => (inl e, w).
Definition get_store : M Store := fun w => (inr (store w), w).
Definition put_store (s : Store) : M unit :=
  fun w => (inr tt, mkWorld s (calls w)).
Definition log_call (c : Call) : M unit :=
  fun w => (inr tt, mkWorld (store w) (calls w ++ [c])).

Notation "x <- m ;; k" := (bind m (fun x => k))
  (at level 61, m at next level, right associativity).

(** [if (cond) return next(e)]. *)
Definition reject_if (cond : bool) (e : Failure) : M unit :=
  if cond then fail e else ret tt.

(** JavaScript truthiness of an optional string body field. *)
Definition falsy (o : option string) : bool :=
  match o with None => true | Some s => String.eqb s "" end.
Definition val (o : option string) : string :=
  match o with None => "" | Some s => s end.

(** ** Document-store operations *)

(** [findOneAndUpdate]: update the first matching document, answer the
    updated document ([{ new: true }]); no upsert. *)
Fixpoint update_first {A} (p : A -> bool) (f : A -> A) (l : list A)
  : option A * list A :=
  match l with
  | [] => (None, [])
  | x :: l' =>
      if p x then (Some (f x), f x :: l')
      else let (r, l'') := update_first p f l' in (r, x :: l'')
  end.

Definition set_bill_status (b : Bill) (st : BillStatus) : Bill :=
  mkBill (bill_id b) (bill_request b) (bill_amount b) st.
Definition set_transfer_status (t : Transfer) (st : string) : Transfer :=
  mkTransfer (transfer_id t) (transfer_payment t) (transfer_provider t)
             (transfer_amount t) st (transfer_mode t).

(** [doc.status = st; await doc.save()]: Mongoose sends
    [updateOne({ _id }, { $set: { status: st } })], only the modified path. *)
Definition update_bill_status (bid : nat) (st : BillStatus) (l : list Bill) : list Bill :=
  map (fun x => if Nat.eqb (bill_id x) bid then set_bill_status x st else x) l.
Definition update_transfer_status (tid : nat) (st : string) (l : list Transfer)
  : list Transfer :=
  map (fun x => if Nat.eqb (transfer_id x) tid then set_transfer_status x st else x) l.

Definition find_request (id : nat) : M (option ServiceRequest) :=
  s <- get_store ;; ret (find (fun r => Nat.eqb (sr_id r) id) (requests s)).
Definition find_bill_by_request (id : nat) : M (option Bill) :=
  s <- get_store ;; ret (find (fun b => Nat.eqb (bill_request b) id) (bills s)).
Definition find_payment_by_bill (bid : nat) : M (option Payment) :=
  s <- get_store ;; ret (find (fun p => Nat.eqb (payment_bill p) bid) (payments s)).
Definition find_payment_by_id (pid : nat) : M (option Payment) :=
  s <- get_store ;; ret (find (fun p => Nat.eqb (payment_id p) pid) (payments s)).
Definition find_transfer (tid : nat) : M (option Transfer) :=
  s <- get_store ;; ret (find (fun t => Nat.eqb (transfer_id t) tid) (transfers s)).
Definition find_bank_detail (prov : nat) : M (option ProviderBankDetail) :=
  s <- get_store ;;
  ret (find (fun d => Nat.eqb (pbd_provider d) prov) (bank_details s)).

(** [Payment.findOneAndUpdate({ bill }, { razorpay_order_id,
    razorpay_payment_id, payment_method, status: 'captured' }, { new: true })]. *)
Definition capture_payment (oid gw_pid method : string) (p : Payment) : Payment :=
  mkPayment (payment_id p) (payment_bill p) (payment_amount p)
            (payment_platform_fee p) "captured" oid gw_pid method.

Definition find_one_and_update_payment (bid : nat) (oid gw_pid method : string)
  : M (option Payment) :=
  s <- get_store ;;
  match update_first (fun p => Nat.eqb (payment_bill p) bid)
                     (capture_payment oid gw_pid method) (payments s) with
  | (None, _) => ret None
  | (Some p, l) => _ <- put_store (set_payments s l) ;; ret (Some p)
  end.

Definition save_bill_status (b : Bill) (st : BillStatus) : M unit :=
  s <- get_store ;; put_store (set_bills s (update_bill_status (bill_id b) st (bills s))).

Definition save_transfer_status (t : Transfer) (st : string) : M unit :=
  s <- get_store ;;
  put_store (set_transfers s (update_transfer_status (transfer_id t) st (transfers s))).

(** [Transfer.create({ payment, provider, amount, status, transfer_mode })]. *)
Definition create_transfer (pay : nat) (prov : option nat) (amount : Z)
  (status mode : string) : M Transfer :=
  s <- get_store ;;
  let t := mkTransfer (next_id s) pay prov amount status mode in
  _ <- put_store (bump_id (set_transfers s (transfers s ++ [t]))) ;;
  ret t.

Definition type_error_null : string := "TypeError: Cannot read properties of null".
Definition err_type_error : Failure := Thrown type_error_null.
Definition err_validation : Failure := Thrown "ValidationError".
Definition err_duplicate_key : Failure := Thrown "MongoServerError: E11000 duplicate key".

(** src/unnamed/part_000 never requires 'crypto': there [crypto] is Node's
    global Web Crypto object, which has no [createHmac], so calling it throws
    (a ReferenceError instead on a Node without that global). *)
Definition create_hmac_error : string := "TypeError: crypto.createHmac is not a function".
Definition err_create_hmac : Failure := Thrown create_hmac_error.

(** [await razorpay.orders.fetch(order_id)]: a rejection propagates as is. *)
Definition fetch_order (env : Env) (oid : string) : M Order :=
  match orders_fetch env oid with
  | Some o => _ <- log_call (OrderFetch oid true) ;; ret o
  | None => _ <- log_call (OrderFetch oid false) ;;
            fail (Thrown (order_fetch_error env oid))
  end.

(** [await razorpay.transfers.create({...})]: a rejection propagates as is. *)
Definition create_payout (env : Env) (r : PayoutReq) : M string :=
  match transfers_create env r with
  | Some f => _ <- log_call (TransferCreate r true) ;; ret f
  | None => _ <- log_call (TransferCreate r false) ;;
            fail (Thrown (transfer_create_error env r))
  end.

(** ** The errors of the handlers *)

Definition err_missing_details := AppErr "Missing payment verification details" 400.
Definition err_invalid_request :=
  AppErr "Invalid service request or unauthorized access" 403.
Definition err_bill_not_found := AppErr "Bill not found" 400.
Definition err_bill_already_paid := AppErr "Bill already paid" 400.
Definition err_duplicate_payment :=
  AppErr "Duplicate payment detected. Payment already captured." 400.
Definition err_invalid_transfer_status := AppErr "Invalid transfer status" 400.
Definition err_invalid_signature := AppErr "Invalid payment signature" 400.
Definition err_amount_mismatch := AppErr "Payment amount mismatch" 400.
Definition err_no_payment_entry := AppErr "No payment entry found for the bill" 400.
Definition err_transfer_not_found := AppErr "Transfer not found" 404.
Definition err_duplicate_transfer :=
  AppErr "Duplicate transfer detected. Transfer already captured." 400.
Definition err_bank_details :=
  AppErr "Provider bank details not verified or missing" 400.
Definition err_sr_not_found := AppErr "Service request not found" 404.
Definition err_not_authorized_to_pay :=
  AppErr "Not authorized to pay for this request" 403.
Definition err_no_bill_found := AppErr "No bill found for this request" 400.

Definition bill_is_paid (b : Bill) : bool :=
  match bill_status b with paid => true | unpaid => false end.

(** ** The handlers *)

(** [exports.processPaymentFromCustomerToMe] (paymentController.js, lines
    20-103).  The ServiceRequest is populated with 'customer' only, so
    [serviceRequest.service.provider] reads a property of an ObjectId and is
    [undefined]: the Transfer is created with provider [None]. *)
Definition processPaymentFromCustomerToMe (env : Env) (req : PayReq) : M Response :=
  if falsy (body_order_id req) || falsy (body_payment_id req)
     || falsy (body_signature req)
  then fail err_missing_details else
  let razorpay_order_id := val (body_order_id req) in
  let razorpay_payment_id := val (body_payment_id req) in
  let razorpay_signature := val (body_signature req) in
  serviceRequest <- find_request (params_id req) ;;
  match serviceRequest with
  | None => fail err_invalid_request
  | Some sr =>
    match sr_customer sr with
    | None => fail err_type_error
    | Some cust =>
      _ <- reject_if (negb (Nat.eqb cust (user_id req))) err_invalid_request ;;
      bill <- find_bill_by_request (params_id req) ;;
      match bill with
      | None => fail err_bill_not_found
      | Some b =>
        _ <- reject_if (bill_is_paid b) err_bill_already_paid ;;
        existingPayment <- find_payment_by_bill (bill_id b) ;;
        _ <- reject_if (match existingPayment with
                        | Some p => String.eqb (payment_status p) "captured"
                        | None => false end) err_duplicate_payment ;;
        _ <- reject_if (match existingPayment with
                        | Some p => negb (String.eqb (payment_status p) "created")
                        | None => false end) err_invalid_transfer_status ;;
        let generatedSignature :=
          hmac_sha256_hex env (razorpay_secret env)
                          (razorpay_order_id ++ "|" ++ razorpay_payment_id) in
        _ <- reject_if (negb (String.eqb generatedSignature razorpay_signature))
                       err_invalid_signature ;;
        order <- fetch_order env razorpay_order_id ;;
        _ <- reject_if (negb (order_amount order =? bill_amount b * 100)%float)
                       err_amount_mismatch ;;
        payment <- find_one_and_update_payment (bill_id b) razorpay_order_id
                     razorpay_payment_id (order_method order) ;;
        match payment with
        | None => fail err_no_payment_entry
        | Some p =>
          _ <- save_bill_status b paid ;;
          let transferAmount := (payment_amount p - payment_platform_fee p)%Z in
          transfer <- create_transfer (payment_id p) None transferAmount
                                      "created" "pending" ;;
          ret (SettlementOk p transfer)
        end
      end
    end
  end.

(** [exports.processPaymentFromMeToProvider] (paymentController.js, lines
    107-153).  [populate('provider payment')]: a provider or payment that does
    not populate is [null], and reading [._id] of it throws. *)
Definition processPaymentFromMeToProvider (env : Env) (transferId : nat) : M Response :=
  transfer <- find_transfer transferId ;;
  match transfer with
  | None => fail err_transfer_not_found
  | Some t =>
    _ <- reject_if (String.eqb (transfer_status t) "captured") err_duplicate_transfer ;;
    _ <- reject_if (negb (String.eqb (transfer_status t) "created"))
                   err_invalid_transfer_status ;;
    match transfer_provider t with
    | None => fail err_type_error
    | Some prov =>
      providerBankDetails <- find_bank_detail prov ;;
      match providerBankDetails with
      | None => fail err_bank_details
      | Some d =>
        _ <- reject_if (negb (String.eqb (verification_status d) "verified"))
                       err_bank_details ;;
        pay <- find_payment_by_id (transfer_payment t) ;;
        match pay with
        | None => fail err_type_error
        | Some p =>
          fundTransfer <- create_payout env
            (mkPayoutReq (razorpay_account_number env) (transfer_amount t) "INR"
                         (transfer_mode t) "payout" (razorpay_fund_id d)
                         (payment_id p) prov) ;;
          _ <- save_transfer_status t "captured" ;;
          ret (PayoutOk fundTransfer)
        end
      end
    end
  end.

(** [exports.processPayment] of the customer controller (src/unnamed/part_000,
    lines 258-328), the handler routed at [POST /requests/:id/pay].  Steps 1
    to 3 read the body, the ServiceRequest and the Bill; step 4 calls
    [crypto.createHmac] (line 289), which throws ([err_create_hmac]), so the
    signature comparison, [razorpay.orders.fetch], the duplicate check, the
    RazorpayPayment creation and the Bill update (lines 294-327) are never
    reached. *)
Definition processPayment (env : Env) (req : PayReq) : M Response :=
  if falsy (body_order_id req) || falsy (body_payment_id req)
     || falsy (body_signature req)
  then fail err_missing_details else
  serviceRequest <- find_request (params_id req) ;;
  match serviceRequest with
  | None => fail err_sr_not_found
  | Some sr =>
    match sr_customer sr with
    | None => fail err_type_error
    | Some cust =>
      _ <- reject_if (negb (Nat.eqb cust (user_id req))) err_not_authorized_to_pay ;;
      bill <- find_bill_by_request (params_id req) ;;
      match bill with
      | None => fail err_no_bill_found
      | Some _ => fail err_create_hmac
      end
    end
  end.

(** The payment operations of the system, run one after another. *)
Inductive Op :=
| Settle (r : PayReq)
| Dispatch (transferId : nat)
| PayCustomer (r : PayReq).

Definition run_op (env : Env) (op : Op) : M Response :=
  match op with
  | Settle r => processPaymentFromCustomerToMe env r
  | Dispatch tid => processPaymentFromMeToProvider env tid
  | PayCustomer r => processPayment env r
  end.

Fixpoint run_ops (env : Env) (ops : list Op) (w : World) : World :=
  match ops with
  | [] => w
  | op :: ops' => run_ops env ops' (snd (run_op env op w))
  end.

(** ** The preconditions of the settlement, in the order of the spec (4.4)

    Following the spec: after the request body is validated, (1) the caller
    owns the ServiceRequest, (2) the Bill exists and is not paid, (3) an
    existing Payment is neither captured nor in a state other than created,
    (4) the signature verifies, (5) the gateway's order amount reconciles.
    The answer is the failure of the first check that fails, evaluated on the
    store before the call. *)

(** Checks (4) and (5), for the Bill [b]. *)
Definition spec_signature_and_amount (env : Env) (req : PayReq) (b : Bill)
  : option Failure :=
  let oid := val (body_order_id req) in
  let gw_pid := val (body_payment_id req) in
  let sig := val (body_signature req) in
  if negb (String.eqb (hmac_sha256_hex env (razorpay_secret env)
                                        (oid ++ "|" ++ gw_pid)) sig)
  then Some err_invalid_signature else
  match orders_fetch env oid with
  | None => Some (Thrown (order_fetch_error env oid))
  | Some o =>
      if negb (order_amount o =? bill_amount b * 100)%float
      then Some err_amount_mismatch else None
  end.

Definition spec_settlement_preconditions (env : Env) (s : Store) (req : PayReq)
  : option Failure :=
  if falsy (body_order_id req) || falsy (body_payment_id req)
     || falsy (body_signature req)
  then Some err_missing_details else
  (* 1 *)
  match find (fun r => Nat.eqb (sr_id r) (params_id req)) (requests s) with
  | None => Some err_invalid_request
  | Some sr =>
  match sr_customer sr with
  | None => Some err_type_error
  | Some c =>
  if negb (Nat.eqb c (user_id req)) then Some err_invalid_request else
  (* 2 *)
  match find (fun b => Nat.eqb (bill_request b) (params_id req)) (bills s) with
  | None => Some err_bill_not_found
  | Some b =>
  if bill_is_paid b then Some err_bill_already_paid else
  (* 3 *)
  match find (fun p => Nat.eqb (payment_bill p) (bill_id b)) (payments s) with
  | Some p =>
      if String.eqb (payment_status p) "captured" then Some err_duplicate_payment
      else if negb (String.eqb (payment_status p) "created")
      then Some err_invalid_transfer_status
      (* 4, 5 *)
      else spec_signature_and_amount env req b
  | None => spec_signature_and_amount env req b
  end
  end
  end
  end.

(** Checks (1) to (4) of the settlement hold on the store [s] for the Bill
    [b]: complete body, caller owns the ServiceRequest, Bill unpaid, an
    existing Payment is 'created', the signature verifies. *)
Definition settlement_checks_pass (env : Env) (s : Store) (req : PayReq) (b : Bill)
  : Prop :=
  falsy (body_order_id req) || falsy (body_payment_id req)
    || falsy (body_signature req) = false /\
  (exists sr, find (fun r => Nat.eqb (sr_id r) (params_id req)) (requests s) = Some sr
              /\ sr_customer sr = Some (user_id req)) /\
  find (fun x => Nat.eqb (bill_request x) (params_id req)) (bills s) = Some b /\
  bill_status b = unpaid /\
  (forall p, find (fun q => Nat.eqb (payment_bill q) (bill_id b)) (payments s) = Some p
             -> payment_status p = "created") /\
  hmac_sha256_hex env (razorpay_secret env)
    (val (body_order_id req) ++ "|" ++ val (body_payment_id req))
  = val (body_signature req).

(** The ProviderBankDetail of the provider of the Transfer [t] is missing
    or not 'verified'. *)
Definition bank_details_unverified (s : Store) (t : Transfer) : Prop :=
  forall prov, transfer_provider t = Some prov ->
    match find (fun d => Nat.eqb (pbd_provider d) prov) (bank_details s) with
    | None => True
    | Some d => verification_status d <> "verified"
    end.

(** ** Sample data

    A customer 7 owns ServiceRequest 1, billed 500 by Bill 2; Payment 4 of
    500 with a platform fee of 50 awaits capture; provider 9 has verified
    bank details.  The digest is a stand-in keyed function; the gateway
    knows four orders and rejects every other order id. *)
Definition sample_env : Env :=
  mkEnv "secret" "acct_1" (fun k m => k ++ ":" ++ m)
    (fun oid => if String.eqb oid "order_1" then Some (mkOrder 50000 "UPI")
                else if String.eqb oid "order_2" then Some (mkOrder 25001 "UPI")
                else if String.eqb oid "order_3" then Some (mkOrder 25000 "UPI")
                else if String.eqb oid "order_4" then Some (mkOrder 110 "UPI")
                else None)
    (fun _ => Some "trf_1")
    (fun oid => "BAD_REQUEST_ERROR: order " ++ oid ++ " does not exist")
    (fun _ => "BAD_REQUEST_ERROR: payout rejected").

Definition sample_store : Store :=
  mkStore [mkServiceRequest 1 (Some 7) 3] [mkBill 2 1 500 unpaid]
          [mkPayment 4 2 500 50 "created" "" "" ""] []
          [mkProviderBankDetail 9 "verified" "fa_1"] [] 10.

Definition sample_world : World := mkWorld sample_store [].

(** The Bill of 250 of the spec's reconciliation example. *)
Definition sample_store_250 : Store :=
  mkStore [mkServiceRequest 1 (Some 7) 3] [mkBill 2 1 250 unpaid]
          [mkPayment 4 2 250 25 "created" "" "" ""] []
          [mkProviderBankDetail 9 "verified" "fa_1"] [] 10.

Definition sample_req : PayReq :=
  mkPayReq 7 1 (Some "order_1") (Some "pay_1") (Some "secret:order_1|pay_1").

(** ** Documents and errors the theorems speak of *)

(** The errors a settlement can answer before or at the signature check. *)
Definition settle_errors_upto_signature : list Failure :=
  [err_missing_details; err_invalid_request; err_type_error; err_bill_not_found;
   err_bill_already_paid; err_duplicate_payment; err_invalid_transfer_status;
   err_invalid_signature].


Definition payment_key (p : Payment) : nat * nat * Z * Z :=
  (payment_id p, payment_bill p, payment_amount p, payment_platform_fee p).
Definition transfer_key (t : Transfer) : nat * nat * Z :=
  (transfer_id t, transfer_payment t, transfer_amount t).

(** A Transfer whose amount is the amount of a stored Payment of its own
    id minus that Payment's platform fee. *)
Definition transfer_funded (ps : list Payment) (t : Transfer) : Prop :=
  exists p, In p ps /\ payment_id p = transfer_payment t /\
            transfer_amount t = (payment_amount p - payment_platform_fee p)%Z.

(** *** The guards of the payment handlers

    Every [if (...) return next(new AppError(...))] of the three payment
    handlers, named after the handler and the condition it refuses, in the
    order of the source.  The ServiceRequest guard of the settlement
    ([!serviceRequest || serviceRequest.customer._id.toString() !==
    req.user.id]) and its bank-details guard ([!providerBankDetails ||
    providerBankDetails.verification_status !== 'verified']) each test two
    conditions; each condition is a guard of its own here. *)
Inductive Guard :=
| settle_missing_details | settle_request_missing | settle_request_foreign
| settle_bill_missing | settle_bill_paid | settle_payment_captured
| settle_payment_not_created | settle_signature | settle_amount
| settle_no_payment_entry
| payout_transfer_missing | payout_transfer_captured | payout_transfer_not_created
| payout_bank_missing | payout_bank_unverified
| pay_missing_details | pay_request_missing | pay_request_foreign | pay_bill_missing.

(** The AppError each guard passes to [next]. *)
Definition guard_error (g : Guard) : Failure :=
  match g with
  | settle_missing_details => err_missing_details
  | settle_request_missing => err_invalid_request
  | settle_request_foreign => err_invalid_request
  | settle_bill_missing => err_bill_not_found
  | settle_bill_paid => err_bill_already_paid
  | settle_payment_captured => err_duplicate_payment
  | settle_payment_not_created => err_invalid_transfer_status
  | settle_signature => err_invalid_signature
  | settle_amount => err_amount_mismatch
  | settle_no_payment_entry => err_no_payment_entry
  | payout_transfer_missing => err_transfer_not_found
  | payout_transfer_captured => err_duplicate_transfer
  | payout_transfer_not_created => err_invalid_transfer_status
  | payout_bank_missing => err_bank_details
  | payout_bank_unverified => err_bank_details
  | pay_missing_details => err_missing_details
  | pay_request_missing => err_sr_not_found
  | pay_request_foreign => err_not_authorized_to_pay
  | pay_bill_missing => err_no_bill_found
  end.


(** Where a handler stops: at a guard, or on an error thrown by a call
    ([catchAsync] passes it to [next] as it is). *)
Inductive Stop :=
| AtGuard (g : Guard)
| Throws (what : string).

Definition stop_failure (st : Stop) : Failure :=
  match st with
  | AtGuard g => guard_error g
  | Throws x => Thrown x
  end.



(** The same for [processPayment], which never goes through. *)
Definition pay_stop (s : Store) (req : PayReq) : Stop :=
  if falsy (body_order_id req) || falsy (body_payment_id req)
     || falsy (body_signature req)
  then AtGuard pay_missing_details else
  match find (fun r => Nat.eqb (sr_id r) (params_id req)) (requests s) with
  | None => AtGuard pay_request_missing
  | Some sr =>
  match sr_customer sr with
  | None => Throws type_error_null
  | Some c =>
  if negb (Nat.eqb c (user_id req)) then AtGuard pay_request_foreign else
  match find (fun b => Nat.eqb (bill_request b) (params_id req)) (bills s) with
  | None => AtGuard pay_bill_missing
  | Some _ => Throws create_hmac_error
  end
  end
  end.

(** Steps 1 to 3 of [processPayment] pass on the store [s] for the Bill
    [b]: complete body, the caller owns the ServiceRequest, [b] is its Bill. *)
Definition pay_reaches_signature (s : Store) (req : PayReq) (b : Bill) : Prop :=
  falsy (body_order_id req) || falsy (body_payment_id req)
    || falsy (body_signature req) = false /\
  (exists sr, find (fun r => Nat.eqb (sr_id r) (params_id req)) (requests s) = Some sr
              /\ sr_customer sr = Some (user_id req)) /\
  find (fun x => Nat.eqb (bill_request x) (params_id req)) (bills s) = Some b.

(** ** The request lifecycle, the reviews and the accounts

    The provider controller (src/controllers/providerController.js), the
    service-request and review handlers of the customer controller
    (src/unnamed/part_000) and the account handlers that follow the payment
    handlers in src/controllers/paymentController.js (lines 209-370) work on
    the users, sessions, services, service requests, bills and reviews. *)

(** A scalar field of a JSON request body; JSON numbers are decimals, so a
    rational number represents one exactly.  An absent field is
    [undefined]. *)
Inductive JsVal :=
| JUndefined
| JNull
| JBool (b : bool)
| JNum (q : Q)
| JStr (s : string).

(** [ServiceRequest.js]: [status] has enum ['pending', 'accepted',
    'rejected', 'completed'], default 'pending'. *)
Inductive RequestStatus := pending | accepted | rejected | completed.

Definition request_status_str (st : RequestStatus) : string :=
  match st with
  | pending => "pending"
  | accepted => "accepted"
  | rejected => "rejected"
  | completed => "completed"
  end.

(** [User.js]; [u_password] holds what the pre-save hook stored. *)
Record User := mkUser {
  u_id : nat;
  u_name : string;
  u_email : string;
  u_password : string;
  u_phone_number : string;
  u_role : string;
  u_coordinates : list Q;
  u_address : string
}.

(** A [Session] document ([ip], [userAgent], and the [active] and
    [logoutTime] paths that [logout] filters on and sets). *)
Record Session := mkSession {
  ses_id : nat;
  ses_user : nat;
  ses_ip : string;
  ses_user_agent : option string;
  ses_active : bool;
  ses_logout_time : option Z
}.

(** A [Service] as the handlers below read it: its id and its provider. *)
Record ServiceDoc := mkServiceDoc {
  svc_id : nat;
  svc_provider : nat
}.

(** A [ServiceRequest] document with its status. *)
Record RequestDoc := mkRequestDoc {
  rq_id : nat;
  rq_service : nat;
  rq_customer : nat;
  rq_time_slot : Z;
  rq_status : RequestStatus
}.

(** A [Bill] document as [generateBill] writes it ([amount] is a Number). *)
Record BillDoc := mkBillDoc {
  gb_id : nat;
  gb_request : nat;
  gb_amount : Q;
  gb_status : BillStatus
}.

(** A [Review] document, with the rating and comment as the body gave them. *)
Record Review := mkReview {
  rv_id : nat;
  rv_service : nat;
  rv_customer : nat;
  rv_rating : JsVal;
  rv_comment : JsVal
}.

(** The runtime the handlers rely on: the clock, JavaScript's conversions,
    Mongoose's ObjectId cast, bcryptjs, jsonwebtoken, and what the schemas
    that are not part of the source decide ([Session]'s default for
    [active], [Review]'s validation). *)
Record AppEnv := mkAppEnv {
  now : Z;                                   (** [Date.now()] *)
  str_to_number : string -> option Q;        (** [Number(s)]; [None] is NaN *)
  num_to_string : Q -> string;               (** [String(n)] *)
  parse_float : JsVal -> option Q;           (** [parseFloat(v)]; [None] is NaN *)
  parse_date : JsVal -> option Z;            (** [new Date(v)]; [None] is Invalid Date *)
  to_object_id : JsVal -> option nat;        (** cast to ObjectId; [None] is a CastError *)
  to_lower_case : string -> string;          (** [s.toLowerCase()] *)
  js_length : string -> nat;                 (** [s.length] *)
  bcrypt_hash : string -> string;            (** [bcrypt.hash(p, 12)] *)
  bcrypt_compare : string -> string -> bool; (** [bcrypt.compare(p, hash)] *)
  jwt_sign : User -> string;                 (** [jwt.sign({ id, role, email }, ...)] *)
  session_active_default : bool;             (** [active] of a new Session *)
  review_valid : Review -> bool              (** the Review schema's validation *)
}.

(** JavaScript's truthiness, [Number(v)], [isNaN(v)], and the comparisons
    [v <= q], [v < q], [v > q] of a body field with a number. *)
Definition truthy (v : JsVal) : bool :=
  match v with
  | JUndefined | JNull => false
  | JBool b => b
  | JNum q => negb (Qeq_bool q 0%Q)
  | JStr s => negb (String.eqb s "")
  end.

Definition to_number (env : AppEnv) (v : JsVal) : option Q :=
  match v with
  | JUndefined => None
  | JNull => Some 0%Q
  | JBool b => Some (if b then 1%Q else 0%Q)
  | JNum q => Some q
  | JStr s => str_to_number env s
  end.

Definition is_nan (env : AppEnv) (v : JsVal) : bool :=
  match to_number env v with None => true | Some _ => false end.

Definition js_le (env : AppEnv) (v : JsVal) (q : Q) : bool :=
  match to_number env v with Some x => Qle_bool x q | None => false end.
Definition js_lt (env : AppEnv) (v : JsVal) (q : Q) : bool :=
  match to_number env v with Some x => negb (Qle_bool q x) | None => false end.
Definition js_gt (env : AppEnv) (v : JsVal) (q : Q) : bool :=
  match to_number env v with Some x => negb (Qle_bool x q) | None => false end.

(** Mongoose's casts to String and to Number; [None] is [null] or a cast
    error, both of which fail a required path's validation. *)
Definition cast_string (env : AppEnv) (v : JsVal) : option string :=
  match v with
  | JUndefined | JNull => None
  | JBool b => Some (if b then "true" else "false")
  | JNum q => Some (num_to_string env q)
  | JStr s => Some s
  end.

Definition cast_number (env : AppEnv) (v : JsVal) : option Q :=
  match v with
  | JUndefined | JNull => None
  | JBool b => Some (if b then 1%Q else 0%Q)
  | JNum q => Some q
  | JStr s => if String.eqb s "" then None else str_to_number env s
  end.

Record AppStore := mkAppStore {
  users : list User;
  sessions : list Session;
  services : list ServiceDoc;
  service_requests : list RequestDoc;
  bill_docs : list BillDoc;
  reviews : list Review;
  app_next_id : nat
}.

Definition set_users (s : AppStore) (l : list User) : AppStore :=
  mkAppStore l (sessions s) (services s) (service_requests s) (bill_docs s)
             (reviews s) (app_next_id s).
Definition set_sessions (s : AppStore) (l : list Session) : AppStore :=
  mkAppStore (users s) l (services s) (service_requests s) (bill_docs s)
             (reviews s) (app_next_id s).
Definition set_services (s : AppStore) (l : list ServiceDoc) : AppStore :=
  mkAppStore (users s) (sessions s) l (service_requests s) (bill_docs s)
             (reviews s) (app_next_id s).
Definition set_service_requests (s : AppStore) (l : list RequestDoc) : AppStore :=
  mkAppStore (users s) (sessions s) (services s) l (bill_docs s)
             (reviews s) (app_next_id s).
Definition set_bill_docs (s : AppStore) (l : list BillDoc) : AppStore :=
  mkAppStore (users s) (sessions s) (services s) (service_requests s) l
             (reviews s) (app_next_id s).
Definition set_reviews (s : AppStore) (l : list Review) : AppStore :=
  mkAppStore (users s) (sessions s) (services s) (service_requests s) (bill_docs s)
             l (app_next_id s).
Definition bump_app_id (s : AppStore) : AppStore :=
  mkAppStore (users s) (sessions s) (services s) (service_requests s) (bill_docs s)
             (reviews s) (S (app_next_id s)).

(** A state and error monad over any state; [M] is [ST World]. *)
Definition ST (S A : Type) : Type := S -> (Failure + A) * S.

Definition st_ret {S A} (a : A) : ST S A := fun s => (inr a, s).
Definition st_bind {S A B} (m : ST S A) (k : A -> ST S B) : ST S B :=
  fun s => match m s with
           | (inl e, s') => (inl e, s')
           | (inr a, s') => k a s'
           end.
Definition st_fail {S A} (e : Failure) : ST S A := fun s => (inl e, s).
Definition st_get {S} : ST S S := fun s => (inr s, s).
Definition st_put {S} (s : S) : ST S unit := fun _ => (inr tt, s).
Definition st_reject_if {S} (cond : bool) (e : Failure) : ST S unit :=
  if cond then st_fail e else st_ret tt.

Notation "x <-- m ;;; k" := (st_bind m (fun x => k))
  (at level 61, m at next level, right associativity).

Definition AM := ST AppStore.

(** [findByIdAndDelete]: remove the first document with the id. *)
Fixpoint delete_first {A} (p : A -> bool) (l : list A) : list A :=
  match l with
  | [] => []
  | x :: l' => if p x then l' else x :: delete_first p l'
  end.

Definition set_request_status (r : RequestDoc) (st : RequestStatus) : RequestDoc :=
  mkRequestDoc (rq_id r) (rq_service r) (rq_customer r) (rq_time_slot r) st.

(** [serviceRequest.status = st; await serviceRequest.save()]: an
    [updateOne({ _id }, { $set: { status: st } })], which updates the first
    document with the id. *)
Definition update_request_status (id : nat) (st : RequestStatus) (l : list RequestDoc)
  : list RequestDoc :=
  snd (update_first (fun x => Nat.eqb (rq_id x) id) (fun x => set_request_status x st) l).

Definition set_user_password (u : User) (h : string) : User :=
  mkUser (u_id u) (u_name u) (u_email u) h (u_phone_number u) (u_role u)
         (u_coordinates u) (u_address u).

(** [user.password = p; await user.save()]: the pre-save hook stores the
    hash [h], by an [updateOne] on the first document with the id. *)
Definition update_user_password (id : nat) (h : string) (l : list User) : list User :=
  snd (update_first (fun x => Nat.eqb (u_id x) id) (fun x => set_user_password x h) l).

(** [{ logoutTime: Date.now(), active: false }]. *)
Definition end_session (t : Z) (x : Session) : Session :=
  mkSession (ses_id x) (ses_user x) (ses_ip x) (ses_user_agent x) false (Some t).

Definition find_service (id : nat) (s : AppStore) : option ServiceDoc :=
  find (fun v => Nat.eqb (svc_id v) id) (services s).
Definition find_service_request (id : nat) (s : AppStore) : option RequestDoc :=
  find (fun r => Nat.eqb (rq_id r) id) (service_requests s).

(** [User.findOne({ email })]: the schema's [lowercase] setter applies to
    the query's value as to the stored one. *)
Definition email_query (env : AppEnv) (v : JsVal) : option string :=
  option_map (to_lower_case env) (cast_string env v).
Definition has_email (env : AppEnv) (v : JsVal) (u : User) : bool :=
  match email_query env v with Some e => String.eqb (u_email u) e | None => false end.

Definition err_cast : Failure := Thrown "CastError: Cast to ObjectId failed".
Definition err_bcrypt_args : Failure := Thrown "Error: Illegal arguments".
Definition err_service_not_found := AppErr "Service not found" 404.
Definition err_incorrect_login := AppErr "Incorrect email or password" 401.

(** *** [providerController.js] *)

(** [exports.acceptRequest] (lines 157-189).  [populate({ path: 'service',
    select: 'provider' })]: a service that does not populate is [null], and
    reading [.provider] of it throws. *)
Definition acceptRequest (user id : nat) : AM unit :=
  s <-- st_get ;;;
  match find_service_request id s with
  | None => st_fail err_sr_not_found
  | Some sr =>
    match find_service (rq_service sr) s with
    | None => st_fail err_type_error
    | Some svc =>
      _ <-- st_reject_if (negb (Nat.eqb (svc_provider svc) user))
                         (AppErr "Not authorized to accept this request" 403) ;;;
      _ <-- st_reject_if (match rq_status sr with pending => false | _ => true end)
              (AppErr ("Request is already " ++ request_status_str (rq_status sr)) 400) ;;;
      st_put (set_service_requests s
                (update_request_status (rq_id sr) accepted (service_requests s)))
    end
  end.

(** [exports.rejectRequest] (lines 191-223). *)
Definition rejectRequest (user id : nat) : AM unit :=
  s <-- st_get ;;;
  match find_service_request id s with
  | None => st_fail err_sr_not_found
  | Some sr =>
    match find_service (rq_service sr) s with
    | None => st_fail err_type_error
    | Some svc =>
      _ <-- st_reject_if (negb (Nat.eqb (svc_provider svc) user))
                         (AppErr "Not authorized to reject this request" 403) ;;;
      _ <-- st_reject_if (match rq_status sr with pending => false | _ => true end)
              (AppErr ("Cannot reject " ++ request_status_str (rq_status sr) ++ " request")
                      400) ;;;
      st_put (set_service_requests s
                (update_request_status (rq_id sr) rejected (service_requests s)))
    end
  end.

Definition err_valid_amount := AppErr "Please provide a valid amount greater than 0" 400.
Definition err_bill_exists := AppErr "Bill already exists for this request" 400.

(** [exports.generateBill] (lines 225-273).  [Bill.create] casts [amount]
    to a Number (a string that is not a number fails the cast). *)
Definition generateBill (env : AppEnv) (user id : nat) (amount : JsVal) : AM nat :=
  if negb (truthy amount) || js_le env amount 0%Q then st_fail err_valid_amount else
  s <-- st_get ;;;
  match find_service_request id s with
  | None => st_fail err_sr_not_found
  | Some sr =>
    match find_service (rq_service sr) s with
    | None => st_fail err_type_error
    | Some svc =>
      _ <-- st_reject_if (negb (Nat.eqb (svc_provider svc) user))
              (AppErr "Not authorized to generate bill for this request" 403) ;;;
      _ <-- st_reject_if (match rq_status sr with accepted => false | _ => true end)
              (AppErr "Bill can only be generated for accepted requests" 400) ;;;
      match find (fun b => Nat.eqb (gb_request b) id) (bill_docs s) with
      | Some _ => st_fail err_bill_exists
      | None =>
        match cast_number env amount with
        | None => st_fail err_validation
        | Some a =>
          let newBill := mkBillDoc (app_next_id s) id a unpaid in
          _ <-- st_put (bump_app_id (set_bill_docs s (bill_docs s ++ [newBill]))) ;;;
          st_ret (gb_id newBill)
        end
      end
    end
  end.

(** [exports.deleteService] (lines 134-155). *)
Definition deleteService (user id : nat) : AM unit :=
  s <-- st_get ;;;
  match find_service id s with
  | None => st_fail err_service_not_found
  | Some svc =>
    _ <-- st_reject_if (negb (Nat.eqb (svc_provider svc) user))
                       (AppErr "Not authorized to delete this service" 403) ;;;
    st_put (set_services s (delete_first (fun v => Nat.eqb (svc_id v) id) (services s)))
  end.

(** *** The customer controller ([src/unnamed/part_000]) *)

(** [exports.createServiceRequest] (lines 175-208).  [requestedTime <
    Date.now()] compares the Date's time value, and NaN compares false;
    [ServiceRequest.create] then fails to cast an Invalid Date. *)
Definition createServiceRequest (env : AppEnv) (user : nat) (service_id time_slot : JsVal)
  : AM nat :=
  if negb (truthy service_id) || negb (truthy time_slot)
  then st_fail (AppErr "Please provide service ID and time slot" 400) else
  let requestedTime := parse_date env time_slot in
  _ <-- st_reject_if (match requestedTime with Some t => Z.ltb t (now env) | None => false end)
                     (AppErr "Time slot must be in the future" 400) ;;;
  match to_object_id env service_id with
  | None => st_fail err_cast
  | Some sid =>
    s <-- st_get ;;;
    match find_service sid s with
    | None => st_fail err_service_not_found
    | Some _ =>
      match requestedTime with
      | None => st_fail err_validation
      | Some t =>
        let newRequest := mkRequestDoc (app_next_id s) sid user t pending in
        _ <-- st_put (bump_app_id (set_service_requests s
                                     (service_requests s ++ [newRequest]))) ;;;
        st_ret (rq_id newRequest)
      end
    end
  end.

(** [exports.submitReview] (lines 210-251). *)
Definition submitReview (env : AppEnv) (user id : nat) (rating comment : JsVal) : AM unit :=
  if negb (truthy rating) || negb (truthy comment)
  then st_fail (AppErr "Please provide both rating and comment" 400) else
  if js_lt env rating 1%Q || js_gt env rating 5%Q
  then st_fail (AppErr "Rating must be between 1 and 5" 400) else
  s <-- st_get ;;;
  match find_service id s with
  | None => st_fail err_service_not_found
  | Some _ =>
    match find (fun r => Nat.eqb (rv_service r) id && Nat.eqb (rv_customer r) user)
               (reviews s) with
    | Some _ => st_fail (AppErr "You have already reviewed this service" 400)
    | None =>
      let r := mkReview (app_next_id s) id user rating comment in
      if negb (review_valid env r) then st_fail err_validation
      else st_put (bump_app_id (set_reviews s (reviews s ++ [r])))
    end
  end.

(** *** The account handlers ([paymentController.js], lines 209-370) *)

Record RegisterBody := mkRegisterBody {
  rb_name : JsVal;
  rb_email : JsVal;
  rb_password : JsVal;
  rb_phone_number : JsVal;
  rb_role : JsVal;
  rb_location_latitude : JsVal;
  rb_location_longitude : JsVal;
  rb_address : JsVal
}.

(** [['customer', 'provider'].includes(role)]. *)
Definition valid_role (v : JsVal) : bool :=
  match v with
  | JStr r => String.eqb r "customer" || String.eqb r "provider"
  | _ => false
  end.

(** [User.create({...})]: the document's casts ([lowercase] on the email,
    [[Number]] on the coordinates), its validation ([minlength: 8] on the
    password), then the pre-save hook that hashes the password. *)
Definition new_user (env : AppEnv) (id : nat) (b : RegisterBody) : option User :=
  match cast_string env (rb_name b), email_query env (rb_email b),
        cast_string env (rb_password b), cast_string env (rb_phone_number b),
        cast_string env (rb_role b), parse_float env (rb_location_longitude b),
        parse_float env (rb_location_latitude b), cast_string env (rb_address b) with
  | Some n, Some e, Some p, Some ph, Some r, Some lon, Some lat, Some a =>
      if Nat.ltb (js_length env p) 8 then None
      else Some (mkUser id n e (bcrypt_hash env p) ph r [lon; lat] a)
  | _, _, _, _, _, _, _, _ => None
  end.

Definition err_required_fields := AppErr "Please provide all required fields" 400.
Definition err_user_exists := AppErr "User already exists with this email" 400.

(** [exports.register] (lines 216-272); the unique index on [email] is the
    last check. *)
Definition register (env : AppEnv) (b : RegisterBody) : AM nat :=
  if negb (truthy (rb_name b)) || negb (truthy (rb_email b))
     || negb (truthy (rb_password b)) || negb (truthy (rb_phone_number b))
     || negb (truthy (rb_role b)) || negb (truthy (rb_location_latitude b))
     || negb (truthy (rb_location_longitude b)) || negb (truthy (rb_address b))
  then st_fail err_required_fields else
  if is_nan env (rb_location_latitude b) || is_nan env (rb_location_longitude b)
  then st_fail (AppErr "Invalid coordinates" 400) else
  if negb (valid_role (rb_role b)) then st_fail (AppErr "Invalid user role" 400) else
  s <-- st_get ;;;
  match find (has_email env (rb_email b)) (users s) with
  | Some _ => st_fail err_user_exists
  | None =>
    match new_user env (app_next_id s) b with
    | None => st_fail err_validation
    | Some u =>
      if existsb (fun x => String.eqb (u_email x) (u_email u)) (users s)
      then st_fail err_duplicate_key
      else _ <-- st_put (bump_app_id (set_users s (users s ++ [u]))) ;;; st_ret (u_id u)
    end
  end.

(** [exports.login] (lines 275-324): [user.matchPassword(password)] is
    [bcrypt.compare(password, this.password)], which rejects a password
    that is not a string; a Session is created for each login. *)
Definition login (env : AppEnv) (email password : JsVal) (ip : string)
  (userAgent : option string) : AM (string * User) :=
  if negb (truthy email) || negb (truthy password)
  then st_fail (AppErr "Please provide email and password" 400) else
  s <-- st_get ;;;
  match find (has_email env email) (users s) with
  | None => st_fail err_incorrect_login
  | Some u =>
    match password with
    | JStr p =>
      if bcrypt_compare env p (u_password u) then
        let token := jwt_sign env u in
        let session := mkSession (app_next_id s) (u_id u) ip userAgent
                                 (session_active_default env) None in
        _ <-- st_put (bump_app_id (set_sessions s (sessions s ++ [session]))) ;;;
        st_ret (token, u)
      else st_fail err_incorrect_login
    | _ => st_fail err_bcrypt_args
    end
  end.

Definition err_no_active_session := AppErr "No active session found" 404.

(** [exports.logout] (lines 327-344): [Session.findOneAndUpdate({ user,
    active: true }, { logoutTime: Date.now(), active: false })]. *)
Definition logout (env : AppEnv) (user : nat) : AM unit :=
  s <-- st_get ;;;
  match update_first (fun x => Nat.eqb (ses_user x) user && ses_active x)
                     (end_session (now env)) (sessions s) with
  | (None, _) => st_fail err_no_active_session
  | (Some _, l) => st_put (set_sessions s l)
  end.

(** [exports.resetPassword] (lines 347-370): assigning the value the path
    already holds does not modify it, and [save()] then writes nothing;
    otherwise [user.save()] validates the new password's length, then the
    pre-save hook hashes it. *)
Definition resetPassword (env : AppEnv) (user : nat) (new_password : JsVal) : AM unit :=
  if negb (truthy new_password)
  then st_fail (AppErr "Please provide a new password" 400) else
  s <-- st_get ;;;
  match find (fun u => Nat.eqb (u_id u) user) (users s) with
  | None => st_fail (AppErr "User not found" 404)
  | Some u =>
    match cast_string env new_password with
    | None => st_fail err_validation
    | Some p =>
      if String.eqb p (u_password u) then st_ret tt else
      if Nat.ltb (js_length env p) 8 then st_fail err_validation
      else st_put (set_users s (update_user_password (u_id u) (bcrypt_hash env p)
                                                     (users s)))
    end
  end.

(** The handlers above, run one after another. *)
Inductive AppOp :=
| Register (b : RegisterBody)
| Login (email password : JsVal) (ip : string) (userAgent : option string)
| Logout (user : nat)
| ResetPassword (user : nat) (new_password : JsVal)
| CreateServiceRequest (user : nat) (service_id time_slot : JsVal)
| AcceptRequest (user id : nat)
| RejectRequest (user id : nat)
| GenerateBill (user id : nat) (amount : JsVal)
| DeleteService (user id : nat)
| SubmitReview (user id : nat) (rating comment : JsVal).

Definition run_app_op (env : AppEnv) (op : AppOp) (s : AppStore) : AppStore :=
  match op with
  | Register b => snd (register env b s)
  | Login e p ip ua => snd (login env e p ip ua s)
  | Logout u => snd (logout env u s)
  | ResetPassword u p => snd (resetPassword env u p s)
  | CreateServiceRequest u sid t => snd (createServiceRequest env u sid t s)
  | AcceptRequest u id => snd (acceptRequest u id s)
  | RejectRequest u id => snd (rejectRequest u id s)
  | GenerateBill u id a => snd (generateBill env u id a s)
  | DeleteService u id => snd (deleteService u id s)
  | SubmitReview u id r c => snd (submitReview env u id r c s)
  end.

Fixpoint run_app_ops (env : AppEnv) (ops : list AppOp) (s : AppStore) : AppStore :=
  match ops with
  | [] => s
  | op :: ops' => run_app_ops env ops' (run_app_op env op s)
  end.

(** A request's status may stay, or go from 'pending' to 'accepted' or to
    'rejected'. *)
Definition status_step (before after : RequestStatus) : Prop :=
  after = before \/ (before = pending /\ (after = accepted \/ after = rejected)).

(** The requests [l'] are the requests [l], each with the same id, service,
    customer and time slot and a status reached by [status_step], followed
    by new requests whose status is reached from 'pending'. *)
Definition requests_evolve (l l' : list RequestDoc) : Prop :=
  exists kept added,
    l' = (kept ++ added)%list /\
    Forall2 (fun x y => rq_id y = rq_id x /\ rq_service y = rq_service x /\
                        rq_customer y = rq_customer x /\
                        rq_time_slot y = rq_time_slot x /\
                        status_step (rq_status x) (rq_status y)) l kept /\
    Forall (fun y => status_step pending (rq_status y)) added.

(** A review's rating whose ToNumber is a number lies in [1, 5] (a NaN
    rating passes both comparisons of the controller). *)
Definition rating_in_range (env : AppEnv) (r : Review) : Prop :=
  forall x, to_number env (rv_rating r) = Some x -> (1 <= x)%Q /\ (x <= 5)%Q.

(** A stored password is the hash of a password of at least 8 characters. *)
Definition password_hashed (env : AppEnv) (u : User) : Prop :=
  exists p, 8 <= js_length env p /\ u_password u = bcrypt_hash env p.

Definition active_sessions (user : nat) (l : list Session) : nat :=
  length (filter (fun x => Nat.eqb (ses_user x) user && ses_active x) l).

(** bcrypt's [compare] accepts exactly the password that was hashed. *)
Definition bcrypt_sound (env : AppEnv) : Prop :=
  forall c p, bcrypt_compare env c (bcrypt_hash env p) = String.eqb c p.

(** Sample runtime for the app: identity lowercasing and a hash that tags
    the password. *)
Definition sample_app_env : AppEnv :=
  mkAppEnv 1000 (fun s => if String.eqb s "12" then Some 12%Q else None)
    (fun _ => "n") (fun v => match v with JNum q => Some q | _ => None end)
    (fun v => match v with JNum q => Some (Qnum q) | _ => None end)
    (fun v => match v with JStr s => if String.eqb s "svc" then Some 3 else None
                       | _ => None end)
    (fun s => s) String.length (fun p => "h:" ++ p)
    (fun c h => String.eqb ("h:" ++ c) h) (fun u => "token") true (fun _ => true).

Definition sample_register_body : RegisterBody :=
  mkRegisterBody (JStr "Ann") (JStr "ann@x.io") (JStr "password1") (JStr "555")
    (JStr "customer") (JNum 12%Q) (JNum 77%Q) (JStr "Main St").

(** Provider 9 offers service 3; request 1 of customer 7 is pending. *)
Definition sample_app_store : AppStore :=
  mkAppStore [] [] [mkServiceDoc 3 9] [mkRequestDoc 1 3 7 2000 pending] [] [] 20.

(** *** Invariants of the app's store *)

(** The relation [requests_evolve] asks between a request and its later
    version. *)
Definition rq_same (x y : RequestDoc) : Prop :=
  rq_id y = rq_id x /\ rq_service y = rq_service x /\ rq_customer y = rq_customer x /\
  rq_time_slot y = rq_time_slot x /\ status_step (rq_status x) (rq_status y).

(** The Bill [b] is for a stored request that is accepted. *)
Definition bill_backed (reqs : list RequestDoc) (b : BillDoc) : Prop :=
  exists r, In r reqs /\ rq_id r = gb_request b /\ rq_status r = accepted.

(** At most one Bill per request; every amount positive; every Bill for an
    accepted request. *)
Definition bills_inv (s : AppStore) : Prop :=
  NoDup (map gb_request (bill_docs s)) /\
  Forall (fun b => (0 < gb_amount b)%Q) (bill_docs s) /\
  Forall (bill_backed (service_requests s)) (bill_docs s).

(** At most one Review per service and customer; every numeric rating in
    [1, 5]. *)
Definition reviews_inv (env : AppEnv) (s : AppStore) : Prop :=
  NoDup (map (fun r => (rv_service r, rv_customer r)) (reviews s)) /\
  Forall (rating_in_range env) (reviews s).

(** Unique emails; every password stored hashed. *)
Definition users_inv (env : AppEnv) (s : AppStore) : Prop :=
  NoDup (map u_email (users s)) /\ Forall (password_hashed env) (users s).
(** The sample store once Ann has registered (as user 20), and once
    provider 9 has accepted request 1. *)
Definition sample_registered_store : AppStore :=
  snd (register sample_app_env sample_register_body sample_app_store).
Definition sample_user : User :=
  mkUser 20 "Ann" "ann@x.io" "h:password1" "555" "customer" [77%Q; 12%Q] "Main St".
Definition sample_accepted_store : AppStore := snd (acceptRequest 9 1 sample_app_store).

(** A session of the app: register, log in, accept, bill, review, log out. *)
Definition sample_ops : list AppOp :=
  [Register sample_register_body; Login (JStr "ann@x.io") (JStr "password1") "10.0.0.1" None;
   AcceptRequest 9 1; GenerateBill 9 1 (JNum 50%Q);
   SubmitReview 7 3 (JStr "abc") (JStr "ok"); Logout 20].

(** ** Proof automation *)

Ltac unfold_handlers :=
  unfold processPaymentFromCustomerToMe, processPaymentFromMeToProvider,
    processPayment, spec_settlement_preconditions, spec_signature_and_amount,
    find_request, find_bill_by_request, find_payment_by_bill,
    find_payment_by_id, find_transfer, find_bank_detail,
    find_one_and_update_payment, save_bill_status, save_transfer_status, create_transfer,
    fetch_order, create_payout,
    reject_if, bind, ret, fail, get_store, put_store, log_call in *.

Ltac split_matches :=
  repeat (simpl in *;
    match goal with
    | H : ?x = _ |- context [?x] =>
        tryif is_var x then fail else rewrite H
    | |- context [Nat.eqb ?x ?x] => rewrite Nat.eqb_refl
    | |- context [String.eqb ?x ?x] => rewrite String.eqb_refl
    | |- context [update_first ?p ?f ?l] => destruct (update_first p f l) eqn:?
    | |- context [match ?x with _ => _ end] =>
        lazymatch type of x with prod _ _ => fail | _ => destruct x eqn:? end
    | H : context [match ?x with _ => _ end] |- _ =>
        lazymatch type of x with prod _ _ => fail | _ => destruct x eqn:? end
    end).


Ltac run_handler := unfold_handlers; simpl in *; split_matches; simpl in *.

(** For the app's handlers. *)
Ltac unfold_app :=
  unfold register, login, logout, resetPassword, createServiceRequest, acceptRequest,
    rejectRequest, generateBill, deleteService, submitReview, find_service,
    find_service_request, st_reject_if, st_bind, st_ret, st_fail, st_get, st_put in *.

Ltac run_app := unfold_app; simpl in *; split_matches; simpl in *.

Ltac bool_facts :=
  repeat match goal with
         | H : (_ || _) = false |- _ => apply orb_false_iff in H as [? ?]
         | H : (_ && _) = true |- _ => apply andb_true_iff in H as [? ?]
         | H : negb _ = false |- _ => apply negb_false_iff in H
         | H : negb _ = true |- _ => apply negb_true_iff in H
         | H : Nat.eqb _ _ = true |- _ => apply Nat.eqb_eq in H
         | H : Nat.ltb _ _ = false |- _ => apply Nat.ltb_ge in H
         | H : Z.ltb _ _ = false |- _ => apply Z.ltb_ge in H
         end.

Ltac split5 := split; [|split; [|split; [|split]]].

(** ** Theorems *)

(** Every failing settlement leaves the store as it was. *)
Lemma settle_error_no_mutation (env : Env) (req : PayReq) (w : World) (e : Failure) :
  fst (processPaymentFromCustomerToMe env req w) = inl e ->
  store (snd (processPaymentFromCustomerToMe env req w)) = store w.
Proof.
  destruct w as [s c]; run_handler; intros; try discriminate; reflexivity.
Qed.

(** C1: the settlement evaluates its preconditions in the order of the spec
    (body present, ownership, Bill exists and unpaid, Payment not captured and
    in 'created', signature, amount); when one fails the answer is the failure
    of the first failing one and the store is untouched, and any failure of
    the operation leaves Bill, Payment and Transfer documents untouched. *)
Theorem settlement_preconditions_fail_fast (env : Env) (req : PayReq) (w : World) :
  (forall e, spec_settlement_preconditions env (store w) req = Some e ->
     fst (processPaymentFromCustomerToMe env req w) = inl e /\
     store (snd (processPaymentFromCustomerToMe env req w)) = store w) /\
  (spec_settlement_preconditions env (store w) req = None ->
     (fst (processPaymentFromCustomerToMe env req w) = inl err_no_payment_entry /\
      store (snd (processPaymentFromCustomerToMe env req w)) = store w)
     \/ exists p t, fst (processPaymentFromCustomerToMe env req w)
                    = inr (SettlementOk p t)) /\
  (forall e, fst (processPaymentFromCustomerToMe env req w) = inl e ->
     store (snd (processPaymentFromCustomerToMe env req w)) = store w).
Proof.
  split; [|split].
  - destruct w as [s c]; run_handler; intros ? Hs; try discriminate;
      injection Hs as <-; auto.
  - destruct w as [s c]; run_handler; intros; try discriminate; eauto.
  - apply settle_error_no_mutation.
Qed.

(** ** Lemmas on the store operations *)

Lemma find_update_bill_status (r : nat) (b : Bill) (st : BillStatus) (l : list Bill) :
  find (fun x => Nat.eqb (bill_request x) r) l = Some b ->
  find (fun x => Nat.eqb (bill_request x) r) (update_bill_status (bill_id b) st l)
  = Some (set_bill_status b st).
Proof.
  intros Hf; induction l as [|x l IH]; simpl in *; [discriminate|].
  destruct (Nat.eqb (bill_request x) r) eqn:Ex.
  - injection Hf as ->. rewrite Nat.eqb_refl; simpl. now rewrite Ex.
  - destruct (Nat.eqb (bill_id x) (bill_id b)); simpl; rewrite Ex; auto.
Qed.

Lemma update_first_in {A} (p : A -> bool) (f : A -> A) (l l' : list A) (x : A) :
  update_first p f l = (Some x, l') -> In x l'.
Proof.
  revert l'; induction l as [|y l IH]; simpl; intros l' H; [discriminate|].
  destruct (p y).
  - injection H as <- <-; now left.
  - destruct (update_first p f l) as [r l''] eqn:E.
    injection H as -> <-; right; now apply IH.
Qed.

Lemma update_first_map {A B} (p : A -> bool) (f : A -> A) (g : A -> B) (l : list A) :
  (forall x, g (f x) = g x) -> map g (snd (update_first p f l)) = map g l.
Proof.
  intros Hg; induction l as [|y l IH]; simpl; [reflexivity|].
  destruct (p y); simpl.
  - now rewrite Hg.
  - destruct (update_first p f l) as [r l''] eqn:E; simpl in *; now rewrite IH.
Qed.

Lemma update_first_some {A} (p : A -> bool) (f : A -> A) (l l' : list A) (x : A) :
  update_first p f l = (Some x, l') -> exists y, In y l /\ p y = true /\ x = f y.
Proof.
  revert l'; induction l as [|y l IH]; simpl; intros l' H; [discriminate|].
  destruct (p y) eqn:Ep.
  - injection H as <- <-; eauto.
  - destruct (update_first p f l) as [r l''] eqn:E.
    injection H as -> <-. destruct (IH l'' eq_refl) as (z & ? & ? & ?); eauto.
Qed.


Lemma update_first_none {A} (p : A -> bool) (f : A -> A) (l : list A) :
  find p l = None -> update_first p f l = (None, l).
Proof.
  induction l as [|y l IH]; simpl; [reflexivity|].
  destruct (p y); [discriminate|]. intros H; now rewrite (IH H).
Qed.

(** What a successful settlement has checked and done. *)
Lemma settle_success_inv (env : Env) (req : PayReq) (w : World) p t :
  fst (processPaymentFromCustomerToMe env req w) = inr (SettlementOk p t) ->
  let w' := snd (processPaymentFromCustomerToMe env req w) in
  exists sr b l method,
    falsy (body_order_id req) || falsy (body_payment_id req)
      || falsy (body_signature req) = false /\
    find (fun r => Nat.eqb (sr_id r) (params_id req)) (requests (store w)) = Some sr /\
    sr_customer sr = Some (user_id req) /\
    find (fun x => Nat.eqb (bill_request x) (params_id req)) (bills (store w)) = Some b /\
    update_first (fun q => Nat.eqb (payment_bill q) (bill_id b))
      (capture_payment (val (body_order_id req)) (val (body_payment_id req))
         method) (payments (store w)) = (Some p, l) /\
    store w' = bump_id (set_transfers
                 (set_bills (set_payments (store w) l)
                    (update_bill_status (bill_id b) paid (bills (store w))))
                 (transfers (store w) ++ [t])) /\
    t = mkTransfer (next_id (store w)) (payment_id p) None
                   (payment_amount p - payment_platform_fee p) "created" "pending".
Proof.
  destruct w as [s c]; run_handler; intros H; try discriminate;
  injection H as Hp Ht; subst;
  match goal with E : negb (Nat.eqb _ (user_id req)) = false |- _ =>
    apply negb_false_iff, Nat.eqb_eq in E; subst end;
  do 4 eexists; repeat split; eauto.
Qed.

Lemma settle_success_captured (env : Env) (req : PayReq) (w : World) p t :
  fst (processPaymentFromCustomerToMe env req w) = inr (SettlementOk p t) ->
  payment_status p = "captured" /\
  In p (payments (store (snd (processPaymentFromCustomerToMe env req w)))).
Proof.
  intros H; destruct (settle_success_inv env req w p t H)
    as (sr & b & l & m & _ & _ & _ & _ & Hu & Hs & _).
  rewrite Hs; simpl; split.
  - destruct (update_first_some _ _ _ _ _ Hu) as (y & _ & _ & ->); reflexivity.
  - now apply update_first_in in Hu.
Qed.

(** A settlement for a request whose Bill is already paid changes nothing,
    calls no gateway, and, for a complete body from the owner, answers
    'Bill already paid'. *)
Lemma settle_paid_bill_rejected (env : Env) (req : PayReq) (w : World) (b : Bill) :
  find (fun x => Nat.eqb (bill_request x) (params_id req)) (bills (store w)) = Some b ->
  bill_is_paid b = true ->
  (exists e, fst (processPaymentFromCustomerToMe env req w) = inl e) /\
  snd (processPaymentFromCustomerToMe env req w) = w /\
  (falsy (body_order_id req) || falsy (body_payment_id req)
     || falsy (body_signature req) = false ->
   (exists sr, find (fun r => Nat.eqb (sr_id r) (params_id req)) (requests (store w))
               = Some sr /\ sr_customer sr = Some (user_id req)) ->
   fst (processPaymentFromCustomerToMe env req w) = inl err_bill_already_paid).
Proof.
  destruct w as [s c]; simpl; intros Hb Hp.
  run_handler; repeat split; eauto; intros;
    repeat match goal with
           | H : exists _, _ |- _ => destruct H as (? & ? & ?)
           | H : Some _ = Some _ |- _ => injection H as ->
           end; try discriminate; try congruence.
  match goal with E : negb (Nat.eqb _ _) = true |- _ =>
    apply negb_true_iff, Nat.eqb_neq in E end; congruence.
Qed.

(** C2: capture succeeds at most once per Bill.  After a successful
    settlement (its Payment is captured and its Bill paid), a second
    settlement for the same ServiceRequest, hence the same Bill, is rejected:
    the world (store and gateway log) is left exactly as the first call left
    it, so the Bill stays paid and no second Transfer exists; a complete
    retry by the owner gets 'Bill already paid', the duplicate-operation
    error. *)
Theorem settlement_capture_at_most_once (env : Env) (req1 req2 : PayReq)
  (w : World) (p : Payment) (t : Transfer)
  (Hok : fst (processPaymentFromCustomerToMe env req1 w) = inr (SettlementOk p t))
  (Hsame : params_id req2 = params_id req1) :
  let w1 := snd (processPaymentFromCustomerToMe env req1 w) in
  payment_status p = "captured" /\
  (exists b, find (fun x => Nat.eqb (bill_request x) (params_id req1))
               (bills (store w1)) = Some b /\ bill_status b = paid) /\
  (exists e, fst (processPaymentFromCustomerToMe env req2 w1) = inl e) /\
  snd (processPaymentFromCustomerToMe env req2 w1) = w1 /\
  (falsy (body_order_id req2) || falsy (body_payment_id req2)
     || falsy (body_signature req2) = false ->
   user_id req2 = user_id req1 ->
   fst (processPaymentFromCustomerToMe env req2 w1) = inl err_bill_already_paid).
Proof.
  intros w1.
  destruct (settle_success_inv env req1 w p t Hok)
    as (sr & b & l & m & _ & Hsr & Hcu & Hb & _ & Hs & _).
  pose proof (settle_success_captured env req1 w p t Hok) as [Hcap _].
  set (b' := set_bill_status b paid).
  assert (Hb1 : find (fun x => Nat.eqb (bill_request x) (params_id req1))
                     (bills (store w1)) = Some b').
  { unfold w1; rewrite Hs; simpl.
    now apply find_update_bill_status. }
  rewrite <- Hsame in Hb1.
  destruct (settle_paid_bill_rejected env req2 w1 b' Hb1 eq_refl) as (He & Hw & Hmsg).
  rewrite Hsame in Hb1.
  repeat split; eauto.
  intros Hf Hu; apply Hmsg; auto.
  exists sr; split; [|congruence].
  unfold w1; rewrite Hs, Hsame; exact Hsr.
Qed.

Lemma settlement_capture_at_most_once_witness :
  let p := mkPayment 4 2 500 50 "captured" "order_1" "pay_1" "UPI" in
  let t := mkTransfer 10 4 None 450 "created" "pending" in
  fst (processPaymentFromCustomerToMe sample_env sample_req sample_world)
    = inr (SettlementOk p t) /\
  (let w1 := snd (processPaymentFromCustomerToMe sample_env sample_req sample_world) in
   payment_status p = "captured" /\
   (exists b, find (fun x => Nat.eqb (bill_request x) (params_id sample_req))
                (bills (store w1)) = Some b /\ bill_status b = paid) /\
   (exists e, fst (processPaymentFromCustomerToMe sample_env sample_req w1) = inl e) /\
   snd (processPaymentFromCustomerToMe sample_env sample_req w1) = w1 /\
   (falsy (body_order_id sample_req) || falsy (body_payment_id sample_req)
      || falsy (body_signature sample_req) = false ->
    user_id sample_req = user_id sample_req ->
    fst (processPaymentFromCustomerToMe sample_env sample_req w1)
      = inl err_bill_already_paid)).
Proof.
  split; [vm_compute; reflexivity|].
  exact (settlement_capture_at_most_once sample_env sample_req sample_req
           sample_world _ _ (eq_refl _) eq_refl).
Defined.

(** Every call of [processPayment] fails with the world unchanged, at the
    first of its steps 1 to 3 that refuses the request or at
    [crypto.createHmac]. *)
Lemma pay_fails_unchanged (env : Env) (req : PayReq) (w : World) :
  processPayment env req w = (inl (stop_failure (pay_stop (store w) req)), w).
Proof.
  destruct w as [s c]; unfold pay_stop; run_handler; reflexivity.
Qed.

(** C3: the settlement compares the supplied signature with the keyed digest
    of [order_id|payment_id] under the shared secret: a supplied signature
    that differs from it (in one character or more) makes the settlement
    fail, at the signature check or an earlier one, with the world
    unchanged: no document written and no gateway call made.
    [processPayment] never computes the digest: once its steps 1 to 3 pass
    it throws at [crypto.createHmac], with the world unchanged, whatever the
    signature, the correct one included. *)
Theorem signature_check_by_handler (env : Env) (req : PayReq) (w : World) (b : Bill)
  (oid gw_pid sig : string)
  (Hoid : body_order_id req = Some oid) (Hpid : body_payment_id req = Some gw_pid)
  (Hsig : body_signature req = Some sig) :
  (sig <> hmac_sha256_hex env (razorpay_secret env) (oid ++ "|" ++ gw_pid) ->
     (exists e, fst (processPaymentFromCustomerToMe env req w) = inl e /\
                In e settle_errors_upto_signature) /\
     snd (processPaymentFromCustomerToMe env req w) = w) /\
  (pay_reaches_signature (store w) req b ->
     processPayment env req w = (inl err_create_hmac, w)).
Proof.
  split.
  - intros Hbad.
    assert (Hneq : String.eqb (hmac_sha256_hex env (razorpay_secret env)
                                (oid ++ "|" ++ gw_pid)) sig = false).
    { apply String.eqb_neq; auto. }
    destruct w as [s c]; unfold_handlers; rewrite Hoid, Hpid, Hsig in *; simpl in *.
    rewrite Hneq; simpl.
    split_matches; repeat split; simpl;
      try (eexists; split; [reflexivity | simpl; tauto]).
  - intros (Hf & (sr & Hsr & Hcu) & Hb).
    rewrite pay_fails_unchanged; unfold pay_stop.
    rewrite Hf, Hsr, Hcu, Nat.eqb_refl, Hb; reflexivity.
Qed.

Lemma signature_check_by_handler_witness :
  let bad := mkPayReq 7 1 (Some "order_1") (Some "pay_1") (Some "secret:order_1|pay_2") in
  body_signature sample_req
    = Some (hmac_sha256_hex sample_env (razorpay_secret sample_env) ("order_1|pay_1")) /\
  processPayment sample_env sample_req sample_world = (inl err_create_hmac, sample_world) /\
  (exists e, fst (processPaymentFromCustomerToMe sample_env bad sample_world) = inl e /\
             In e settle_errors_upto_signature) /\
  snd (processPaymentFromCustomerToMe sample_env bad sample_world) = sample_world.
Proof.
  intros bad.
  assert (Hr : pay_reaches_signature (store sample_world) sample_req
                 (mkBill 2 1 500 unpaid)).
  { split; [reflexivity|]; split; [|reflexivity].
    exists (mkServiceRequest 1 (Some 7) 3); split; reflexivity. }
  assert (Hne : "secret:order_1|pay_2" <> hmac_sha256_hex sample_env
                  (razorpay_secret sample_env) ("order_1" ++ "|" ++ "pay_1")).
  { apply String.eqb_neq; vm_compute; reflexivity. }
  split; [reflexivity|].
  split; [exact (proj2 (signature_check_by_handler sample_env sample_req sample_world
                          _ _ _ _ eq_refl eq_refl eq_refl) Hr)|].
  exact (proj1 (signature_check_by_handler sample_env bad sample_world
                  (mkBill 2 1 500 unpaid) _ _ _ eq_refl eq_refl eq_refl) Hne).
Defined.

(** Settlement once checks (1)-(4) hold: the gateway is asked for the order,
    and the outcome is decided by the amount check and the Payment update. *)
Lemma settle_after_checks (env : Env) (req : PayReq) (w : World) (b : Bill) (o : Order) :
  settlement_checks_pass env (store w) req b ->
  orders_fetch env (val (body_order_id req)) = Some o ->
  ((order_amount o =? bill_amount b * 100)%float = false ->
     fst (processPaymentFromCustomerToMe env req w) = inl err_amount_mismatch /\
     store (snd (processPaymentFromCustomerToMe env req w)) = store w) /\
  ((order_amount o =? bill_amount b * 100)%float = true ->
     find (fun q => Nat.eqb (payment_bill q) (bill_id b)) (payments (store w)) = None ->
     fst (processPaymentFromCustomerToMe env req w) = inl err_no_payment_entry /\
     store (snd (processPaymentFromCustomerToMe env req w)) = store w) /\
  ((order_amount o =? bill_amount b * 100)%float = true ->
     fst (processPaymentFromCustomerToMe env req w) = inl err_no_payment_entry \/
     exists p t, fst (processPaymentFromCustomerToMe env req w) = inr (SettlementOk p t)).
Proof.
  intros (Hf & (sr & Hsr & Hcu) & Hb & Hst & Hp & Hh) Ho.
  assert (Hpaid : bill_is_paid b = false) by (unfold bill_is_paid; now rewrite Hst).
  assert (Hh' : String.eqb (hmac_sha256_hex env (razorpay_secret env)
                  (val (body_order_id req) ++ "|" ++ val (body_payment_id req)))
                  (val (body_signature req)) = true) by (rewrite Hh; apply String.eqb_refl).
  clear Hh Hst.
  destruct w as [s c]; simpl in *.
  destruct (find (fun q => Nat.eqb (payment_bill q) (bill_id b)) (payments s))
    as [p|] eqn:Hfp; [pose proof (Hp p eq_refl) as Hps|]; clear Hp.
  all: run_handler; repeat split; intros;
         try (match goal with
              | E : negb ?x = _, H : ?x = _ |- _ => rewrite H in E; discriminate E
              end);
         try discriminate; eauto; try congruence.
  all: match goal with
       | Hn : find ?P ?L = None, Hu : update_first ?P _ ?L = (Some _, _) |- _ =>
           rewrite (update_first_none _ _ _ Hn) in Hu; discriminate
       end.
Qed.





(** ** Documents the operations keep fixed *)

Lemma settle_result_shape (env : Env) (req : PayReq) (w : World) :
  (exists e, fst (processPaymentFromCustomerToMe env req w) = inl e) \/
  (exists p t, fst (processPaymentFromCustomerToMe env req w) = inr (SettlementOk p t)).
Proof. destruct w as [s c]; run_handler; eauto. Qed.

Lemma settle_payment_keys (env : Env) (req : PayReq) (w : World) :
  map payment_key (payments (store (snd (processPaymentFromCustomerToMe env req w))))
  = map payment_key (payments (store w)).
Proof.
  destruct (settle_result_shape env req w) as [(e & He) | (p & t & Hok)].
  - now rewrite (settle_error_no_mutation env req w e He).
  - destruct (settle_success_inv env req w p t Hok)
      as (sr & b & l & m & _ & _ & _ & _ & Hu & Hs & _).
    rewrite Hs; simpl.
    change l with (snd (Some p, l)); rewrite <- Hu.
    apply update_first_map; reflexivity.
Qed.

Lemma dispatch_payments (env : Env) (tid : nat) (w : World) :
  payments (store (snd (processPaymentFromMeToProvider env tid w))) = payments (store w).
Proof. destruct w as [s c]; run_handler; reflexivity. Qed.

Lemma pay_payments (env : Env) (req : PayReq) (w : World) :
  payments (store (snd (processPayment env req w))) = payments (store w).
Proof. destruct w as [s c]; run_handler; reflexivity. Qed.

Lemma pay_transfers (env : Env) (req : PayReq) (w : World) :
  transfers (store (snd (processPayment env req w))) = transfers (store w).
Proof. destruct w as [s c]; run_handler; reflexivity. Qed.

Lemma update_transfer_status_keys (tid : nat) (st : string) (l : list Transfer) :
  map transfer_key (update_transfer_status tid st l) = map transfer_key l.
Proof.
  induction l as [|x l IH]; simpl; [reflexivity|].
  rewrite IH; destruct (Nat.eqb (transfer_id x) tid); reflexivity.
Qed.

Lemma dispatch_transfer_keys (env : Env) (tid : nat) (w : World) :
  map transfer_key (transfers (store (snd (processPaymentFromMeToProvider env tid w))))
  = map transfer_key (transfers (store w)).
Proof.
  destruct w as [s c]; run_handler; try reflexivity.
  apply update_transfer_status_keys.
Qed.

(** C10: the settlement only updates an existing Payment, never creates
    one.  When no Payment exists for the Bill while every check passes
    (body, ownership, unpaid Bill, signature, gateway amount), it answers
    'No payment entry found for the bill' and leaves the store untouched:
    the Bill stays unpaid, and no Payment or Transfer is created.  In every
    case the Payments keep their ids, Bills, amounts and fees, and their
    number. *)
Theorem settlement_requires_existing_payment (env : Env) (req : PayReq) (w : World)
  (b : Bill) (o : Order)
  (Hc : settlement_checks_pass env (store w) req b)
  (Ho : orders_fetch env (val (body_order_id req)) = Some o)
  (Hamt : (order_amount o =? bill_amount b * 100)%float = true)
  (Hnone : find (fun q => Nat.eqb (payment_bill q) (bill_id b)) (payments (store w)) = None) :
  fst (processPaymentFromCustomerToMe env req w) = inl err_no_payment_entry /\
  store (snd (processPaymentFromCustomerToMe env req w)) = store w /\
  (forall req' w', map payment_key
     (payments (store (snd (processPaymentFromCustomerToMe env req' w'))))
     = map payment_key (payments (store w'))).
Proof.
  destruct (settle_after_checks env req w b o Hc Ho) as (_ & H2 & _).
  destruct (H2 Hamt Hnone) as [H3 H4].
  split; [exact H3|]; split; [exact H4|].
  apply settle_payment_keys.
Qed.

Lemma settlement_requires_existing_payment_witness :
  let w := mkWorld (set_payments sample_store_250 []) [] in
  let b := mkBill 2 1 250 unpaid in
  let req := mkPayReq 7 1 (Some "order_3") (Some "pay_1") (Some "secret:order_3|pay_1") in
  fst (processPaymentFromCustomerToMe sample_env req w) = inl err_no_payment_entry /\
  store (snd (processPaymentFromCustomerToMe sample_env req w)) = store w /\
  (forall req' w', map payment_key
     (payments (store (snd (processPaymentFromCustomerToMe sample_env req' w'))))
     = map payment_key (payments (store w'))).
Proof.
  intros w b req.
  apply (settlement_requires_existing_payment sample_env req w b (mkOrder 25000 "UPI")).
  - unfold settlement_checks_pass; simpl.
    repeat match goal with |- _ /\ _ => split end;
      first [reflexivity | eexists; split; reflexivity | discriminate
            | vm_compute; reflexivity].
  - reflexivity.
  - reflexivity.
  - reflexivity.
Defined.

Lemma transfer_funded_keys (ps ps' : list Payment) (t : Transfer) :
  map payment_key ps' = map payment_key ps ->
  transfer_funded ps t -> transfer_funded ps' t.
Proof.
  intros Hk (p & Hin & Hid & Ham).
  assert (Hk' : In (payment_key p) (map payment_key ps')).
  { rewrite Hk; now apply in_map. }
  apply in_map_iff in Hk' as (p' & Hkey & Hin').
  unfold payment_key in Hkey; injection Hkey as Hi Hb Ha Hf.
  exists p'; split; [exact Hin'|]; split; congruence.
Qed.

Lemma settle_transfers_step (env : Env) (req : PayReq) (w : World) :
  let w' := snd (processPaymentFromCustomerToMe env req w) in
  exists added,
    transfers (store w') = (transfers (store w) ++ added)%list /\
    Forall (transfer_funded (payments (store w'))) added.
Proof.
  destruct (settle_result_shape env req w) as [(e & He) | (p & t & Hok)].
  - exists []; rewrite (settle_error_no_mutation env req w e He).
    split; [now rewrite app_nil_r | constructor].
  - pose proof (settle_success_captured env req w p t Hok) as [_ Hin].
    destruct (settle_success_inv env req w p t Hok)
      as (sr & b & l & m & _ & _ & _ & _ & _ & Hs & Ht).
    exists [t]; split.
    + now rewrite Hs.
    + constructor; [|constructor].
      exists p; subst t; simpl; auto.
Qed.

(** One payment operation: the Payments keep their keys, the Transfers
    before it keep theirs, and the Transfers it appends are funded. *)
Lemma op_transfer_step (env : Env) (op : Op) (w : World) :
  let w' := snd (run_op env op w) in
  map payment_key (payments (store w')) = map payment_key (payments (store w)) /\
  exists added,
    map transfer_key (transfers (store w'))
      = (map transfer_key (transfers (store w)) ++ map transfer_key added)%list /\
    Forall (transfer_funded (payments (store w'))) added.
Proof.
  destruct op as [req | tid | req]; simpl.
  - split; [apply settle_payment_keys|].
    destruct (settle_transfers_step env req w) as (added & Ht & Hf).
    exists added; split; [now rewrite Ht, map_app | exact Hf].
  - rewrite dispatch_payments; split; [reflexivity|].
    exists []; rewrite dispatch_transfer_keys, app_nil_r; split; [reflexivity|constructor].
  - rewrite pay_payments; split; [reflexivity|].
    exists []; rewrite pay_transfers, app_nil_r; split; [reflexivity|constructor].
Qed.

Lemma ops_transfer_keys (env : Env) (ops : list Op) (w : World) :
  let w' := run_ops env ops w in
  map payment_key (payments (store w')) = map payment_key (payments (store w)) /\
  exists added,
    map transfer_key (transfers (store w'))
      = (map transfer_key (transfers (store w)) ++ map transfer_key added)%list /\
    Forall (transfer_funded (payments (store w'))) added.
Proof.
  revert w; induction ops as [|op ops IH]; intros w; simpl.
  - split; [reflexivity|]. exists []; rewrite app_nil_r; split; [reflexivity|constructor].
  - destruct (op_transfer_step env op w) as (Hp1 & added1 & Ht1 & Hf1).
    destruct (IH (snd (run_op env op w))) as (Hp2 & added2 & Ht2 & Hf2).
    split; [congruence|].
    exists (added1 ++ added2)%list; split.
    + rewrite Ht2, Ht1, map_app, app_assoc; reflexivity.
    + apply Forall_app; split; [|exact Hf2].
      eapply Forall_impl; [|exact Hf1].
      intros t; apply transfer_funded_keys; exact Hp2.
Qed.

(** C5: the amount of a Transfer is fixed when the settlement creates it.
    A successful settlement appends exactly one Transfer, whose amount is
    the captured Payment's amount minus its platform fee; and over any run of
    the payment operations (settlements, payouts, customer payments) every
    Transfer that existed keeps its id, Payment and amount, while every
    Transfer appended has the amount of a stored Payment of its own id minus
    that Payment's platform fee. *)
Theorem transfer_amount_fixed_at_creation (env : Env) (ops : list Op) (w : World) :
  (forall req p t,
     fst (processPaymentFromCustomerToMe env req w) = inr (SettlementOk p t) ->
     transfers (store (snd (processPaymentFromCustomerToMe env req w)))
       = (transfers (store w) ++ [t])%list /\
     In p (payments (store (snd (processPaymentFromCustomerToMe env req w)))) /\
     transfer_payment t = payment_id p /\
     transfer_amount t = (payment_amount p - payment_platform_fee p)%Z) /\
  (let w' := run_ops env ops w in
   exists old added,
     transfers (store w') = (old ++ added)%list /\
     map transfer_key old = map transfer_key (transfers (store w)) /\
     Forall (transfer_funded (payments (store w'))) added).
Proof.
  split.
  - intros req p t Hok.
    pose proof (settle_success_captured env req w p t Hok) as [_ Hin].
    destruct (settle_success_inv env req w p t Hok)
      as (sr & b & l & m & _ & _ & _ & _ & _ & Hs & Ht).
    split; [rewrite Hs; subst t; reflexivity|].
    split; [exact Hin|]. subst t; split; reflexivity.
  - destruct (ops_transfer_keys env ops w) as (_ & added & Hk & Hf).
    apply map_eq_app in Hk as (old & added' & Hsplit & Hold & Hadded).
    exists old, added'; split; [exact Hsplit|]; split; [exact Hold|].
    (* the appended Transfers have the keys of the funded ones *)
    apply Forall_forall; intros t Ht.
    assert (Hk' : In (transfer_key t) (map transfer_key added)).
    { rewrite <- Hadded; now apply in_map. }
    apply in_map_iff in Hk' as (t0 & Hkey & Hin0).
    rewrite Forall_forall in Hf; destruct (Hf t0 Hin0) as (p & Hin & Hid & Ham).
    unfold transfer_key in Hkey; injection Hkey as Hi Hp Ha.
    exists p; repeat split; congruence.
Qed.

Lemma app_unit_neq {A} (l : list A) (x : A) : l <> (l ++ [x])%list.
Proof. intros H; apply (f_equal (@length A)) in H; rewrite length_app in H; simpl in H; lia. Qed.

(** C6: when the ProviderBankDetail of the Transfer's provider is missing or
    not verified, the payout is refused with an error whatever the Transfer's
    state: no gateway call is made and nothing is written. *)
Theorem payout_requires_verified_bank_details (env : Env) (tid : nat) (w : World)
  (Hunv : forall t, find (fun x => Nat.eqb (transfer_id x) tid) (transfers (store w))
                    = Some t -> bank_details_unverified (store w) t) :
  (exists e, fst (processPaymentFromMeToProvider env tid w) = inl e) /\
  snd (processPaymentFromMeToProvider env tid w) = w.
Proof.
  destruct w as [s c]; simpl in *.
  destruct (find (fun x => Nat.eqb (transfer_id x) tid) (transfers s)) as [t|] eqn:Ht.
  - specialize (Hunv t eq_refl); unfold bank_details_unverified in Hunv.
    destruct (transfer_provider t) as [prov|] eqn:Hprov.
    + specialize (Hunv prov eq_refl).
      destruct (find (fun d => Nat.eqb (pbd_provider d) prov) (bank_details s))
        as [d|] eqn:Hd.
      * assert (Hv : String.eqb (verification_status d) "verified" = false)
          by now apply String.eqb_neq.
        clear Hunv; run_handler; eauto.
      * run_handler; eauto.
    + run_handler; eauto.
  - run_handler; eauto.
Qed.

Lemma payout_requires_verified_bank_details_witness :
  let w := mkWorld (mkStore [] [] [mkPayment 4 2 500 50 "captured" "o" "p" "UPI"]
                      [mkTransfer 10 4 (Some 9) 450 "created" "pending"]
                      [mkProviderBankDetail 9 "pending" "fa_1"] [] 11) [] in
  let w' := mkWorld (mkStore [] [] [mkPayment 4 2 500 50 "captured" "o" "p" "UPI"]
                       [mkTransfer 10 4 (Some 9) 450 "captured" "pending"]
                       [mkProviderBankDetail 9 "pending" "fa_1"] [] 11) [] in
  ((exists e, fst (processPaymentFromMeToProvider sample_env 10 w) = inl e) /\
   snd (processPaymentFromMeToProvider sample_env 10 w) = w) /\
  ((exists e, fst (processPaymentFromMeToProvider sample_env 10 w') = inl e) /\
   snd (processPaymentFromMeToProvider sample_env 10 w') = w').
Proof.
  intros w w'; split.
  - apply payout_requires_verified_bank_details.
    intros t Ht; simpl in Ht; injection Ht as <-.
    intros prov Hp; simpl in Hp; injection Hp as <-; simpl; discriminate.
  - apply payout_requires_verified_bank_details.
    intros t Ht; simpl in Ht; injection Ht as <-.
    intros prov Hp; simpl in Hp; injection Hp as <-; simpl; discriminate.
Defined.

(** C7: the payout marks the Transfer 'captured' only after the remote
    payout call resolved: a failing payout writes nothing; a successful one
    logged a resolved [transfers.create] for a Transfer that was 'created'
    and only then set it to 'captured'; and when the remote call rejects,
    nothing is written and the Transfer is still 'created', so the payout
    can be retried. *)
Theorem payout_captures_only_after_remote_success (env : Env) (tid : nat) (w : World) :
  let r := processPaymentFromMeToProvider env tid w in
  (forall e, fst r = inl e -> store (snd r) = store w) /\
  (forall resp, fst r = inr resp ->
     exists pr fid t,
       resp = PayoutOk fid /\ transfers_create env pr = Some fid /\
       calls (snd r) = (calls w ++ [TransferCreate pr true])%list /\
       find (fun x => Nat.eqb (transfer_id x) tid) (transfers (store w)) = Some t /\
       transfer_status t = "created" /\
       transfers (store (snd r))
         = update_transfer_status (transfer_id t) "captured" (transfers (store w))) /\
  (forall pr, calls (snd r) = (calls w ++ [TransferCreate pr false])%list ->
     store (snd r) = store w /\
     exists t, find (fun x => Nat.eqb (transfer_id x) tid) (transfers (store (snd r)))
               = Some t /\ transfer_status t = "created").
Proof.
  destruct w as [s c]; simpl.
  repeat split; run_handler; intros;
    repeat match goal with
           | H : inl _ = inr _ |- _ => discriminate H
           | H : inr _ = inr _ |- _ => injection H as <-
           | H : c = (c ++ [_])%list |- _ => exfalso; exact (app_unit_neq _ _ H)
           | H : (c ++ [_])%list = (c ++ [_])%list |- _ =>
               apply app_inv_head in H; injection H as ?
           | H : negb (String.eqb _ _) = false |- _ =>
               apply negb_false_iff, String.eqb_eq in H
           end;
    try discriminate; eauto 10.
Qed.

(** C8: a request against a Bill that is already paid is refused by both
    handlers that take a payment for a Bill, with the world unchanged: no
    gateway call is logged and no document is written.  The settlement
    answers 'Bill already paid' to a complete request from the owner;
    [processPayment] does not read the Bill's status, but it throws at
    [crypto.createHmac], before its first gateway call. *)
Theorem paid_bill_rejected_before_gateway (env : Env) (req : PayReq) (w : World)
  (b : Bill)
  (Hb : find (fun x => Nat.eqb (bill_request x) (params_id req)) (bills (store w)) = Some b)
  (Hpaid : bill_status b = paid) :
  (exists e, fst (processPaymentFromCustomerToMe env req w) = inl e) /\
  snd (processPaymentFromCustomerToMe env req w) = w /\
  (exists e, fst (processPayment env req w) = inl e) /\
  snd (processPayment env req w) = w /\
  (falsy (body_order_id req) || falsy (body_payment_id req)
     || falsy (body_signature req) = false ->
   (exists sr, find (fun r => Nat.eqb (sr_id r) (params_id req)) (requests (store w))
               = Some sr /\ sr_customer sr = Some (user_id req)) ->
   fst (processPaymentFromCustomerToMe env req w) = inl err_bill_already_paid).
Proof.
  assert (Hp : bill_is_paid b = true) by (unfold bill_is_paid; now rewrite Hpaid).
  destruct (settle_paid_bill_rejected env req w b Hb Hp) as (He & Hw & Hmsg).
  rewrite (pay_fails_unchanged env req w); simpl.
  repeat split; eauto.
Qed.

Lemma paid_bill_rejected_before_gateway_witness :
  let w := mkWorld (set_bills sample_store [mkBill 2 1 500 paid]) [] in
  (exists e, fst (processPaymentFromCustomerToMe sample_env sample_req w) = inl e) /\
  snd (processPaymentFromCustomerToMe sample_env sample_req w) = w /\
  (exists e, fst (processPayment sample_env sample_req w) = inl e) /\
  snd (processPayment sample_env sample_req w) = w /\
  (falsy (body_order_id sample_req) || falsy (body_payment_id sample_req)
     || falsy (body_signature sample_req) = false ->
   (exists sr, find (fun r => Nat.eqb (sr_id r) (params_id sample_req))
                 (requests (store w)) = Some sr /\ sr_customer sr = Some (user_id sample_req)) ->
   fst (processPaymentFromCustomerToMe sample_env sample_req w) = inl err_bill_already_paid).
Proof.
  intros w.
  exact (paid_bill_rejected_before_gateway sample_env sample_req w (mkBill 2 1 500 paid)
           eq_refl eq_refl).
Defined.




(** ** Further properties of the handlers *)

Lemma find_app_none {A} (p : A -> bool) (l m : list A) :
  find p l = None -> find p (l ++ m)%list = find p m.
Proof.
  induction l as [|x l IH]; simpl; [reflexivity|].
  destruct (p x); [discriminate | exact IH].
Qed.

Lemma find_none_intro {A} (p : A -> bool) (l : list A) :
  (forall x, In x l -> p x = false) -> find p l = None.
Proof.
  induction l as [|x l IH]; simpl; intros H; [reflexivity|].
  rewrite (H x (or_introl eq_refl)); apply IH; auto.
Qed.

Lemma find_update_transfer_status (tid : nat) (t : Transfer) (st : string)
  (l : list Transfer) :
  find (fun x => Nat.eqb (transfer_id x) tid) l = Some t ->
  find (fun x => Nat.eqb (transfer_id x) tid) (update_transfer_status (transfer_id t) st l)
  = Some (set_transfer_status t st).
Proof.
  intros Hf; induction l as [|x l IH]; simpl in *; [discriminate|].
  destruct (Nat.eqb (transfer_id x) tid) eqn:Ex.
  - injection Hf as ->. rewrite Nat.eqb_refl; simpl. now rewrite Ex.
  - destruct (Nat.eqb (transfer_id x) (transfer_id t)); simpl; rewrite Ex; auto.
Qed.

(** What a successful payout has checked and written. *)
Lemma dispatch_success_inv (env : Env) (tid : nat) (w : World) resp :
  fst (processPaymentFromMeToProvider env tid w) = inr resp ->
  exists t,
    find (fun x => Nat.eqb (transfer_id x) tid) (transfers (store w)) = Some t /\
    transfer_status t = "created" /\
    store (snd (processPaymentFromMeToProvider env tid w))
    = set_transfers (store w)
        (update_transfer_status (transfer_id t) "captured" (transfers (store w))).
Proof.
  destruct w as [s c]; run_handler; intros H; try discriminate.
  match goal with E : negb (String.eqb _ "created") = false |- _ =>
    apply negb_false_iff, String.eqb_eq in E end.
  eexists; repeat split; eauto.
Qed.

(** After a successful payout of a Transfer, dispatching the same Transfer
    again answers the duplicate-transfer error and leaves the world, the
    calls to the payment provider included, as it was. *)
Theorem payout_not_repeated (env : Env) (tid : nat) (w : World) resp
  (Hok : fst (processPaymentFromMeToProvider env tid w) = inr resp) :
  let w1 := snd (processPaymentFromMeToProvider env tid w) in
  fst (processPaymentFromMeToProvider env tid w1) = inl err_duplicate_transfer /\
  snd (processPaymentFromMeToProvider env tid w1) = w1.
Proof.
  intros w1.
  destruct (dispatch_success_inv env tid w resp Hok) as (t & Hf & Hst & Hs).
  assert (Hf1 : find (fun x => Nat.eqb (transfer_id x) tid) (transfers (store w1))
                = Some (set_transfer_status t "captured")).
  { unfold w1; rewrite Hs; simpl; now apply find_update_transfer_status. }
  clearbody w1; destruct w1 as [s1 c1]; simpl in Hf1.
  unfold processPaymentFromMeToProvider, find_transfer, reject_if, bind, ret, fail,
    get_store; simpl; rewrite Hf1; simpl; split; reflexivity.
Qed.

Lemma payout_not_repeated_witness :
  let w := mkWorld (mkStore [] [] [mkPayment 4 2 500 50 "captured" "o" "p" "UPI"]
                      [mkTransfer 10 4 (Some 9) 450 "created" "pending"]
                      [mkProviderBankDetail 9 "verified" "fa_1"] [] 11) [] in
  fst (processPaymentFromMeToProvider sample_env 10 w) = inr (PayoutOk "trf_1") /\
  (let w1 := snd (processPaymentFromMeToProvider sample_env 10 w) in
   fst (processPaymentFromMeToProvider sample_env 10 w1) = inl err_duplicate_transfer /\
   snd (processPaymentFromMeToProvider sample_env 10 w1) = w1).
Proof.
  intros w; split; [vm_compute; reflexivity|].
  exact (payout_not_repeated sample_env 10 w (PayoutOk "trf_1") eq_refl).
Defined.

(** The Transfer a successful settlement creates is stored in 'created'
    with no provider, so dispatching it reads the id of a missing provider,
    throws a TypeError and changes nothing. *)
Theorem settlement_transfer_not_dispatchable (env : Env) (req : PayReq) (w : World)
  (p : Payment) (t : Transfer)
  (Hok : fst (processPaymentFromCustomerToMe env req w) = inr (SettlementOk p t))
  (Hfresh : forall x, In x (transfers (store w)) -> transfer_id x <> next_id (store w)) :
  let w1 := snd (processPaymentFromCustomerToMe env req w) in
  In t (transfers (store w1)) /\ transfer_status t = "created" /\
  transfer_provider t = None /\
  fst (processPaymentFromMeToProvider env (transfer_id t) w1) = inl err_type_error /\
  snd (processPaymentFromMeToProvider env (transfer_id t) w1) = w1.
Proof.
  intros w1.
  destruct (settle_success_inv env req w p t Hok)
    as (sr & b & l & m & _ & _ & _ & _ & _ & Hs & Ht).
  assert (Htr : transfers (store w1) = (transfers (store w) ++ [t])%list)
    by (unfold w1; now rewrite Hs).
  assert (Hf : find (fun x => Nat.eqb (transfer_id x) (transfer_id t)) (transfers (store w1))
               = Some t).
  { rewrite Htr, find_app_none.
    - simpl; now rewrite Nat.eqb_refl.
    - apply find_none_intro; intros x Hx; subst t; simpl.
      apply Nat.eqb_neq, Hfresh, Hx. }
  clearbody w1; destruct w1 as [s1 c1]; simpl in *.
  subst t; simpl in *.
  repeat split.
  - rewrite Htr; apply in_or_app; right; now left.
  - unfold processPaymentFromMeToProvider, find_transfer, reject_if, bind, ret, fail,
      get_store; simpl; rewrite Hf; reflexivity.
  - unfold processPaymentFromMeToProvider, find_transfer, reject_if, bind, ret, fail,
      get_store; simpl; rewrite Hf; reflexivity.
Qed.

Lemma settlement_transfer_not_dispatchable_witness :
  let t := mkTransfer 10 4 None 450 "created" "pending" in
  let w1 := snd (processPaymentFromCustomerToMe sample_env sample_req sample_world) in
  fst (processPaymentFromCustomerToMe sample_env sample_req sample_world)
    = inr (SettlementOk (mkPayment 4 2 500 50 "captured" "order_1" "pay_1" "UPI") t) /\
  (In t (transfers (store w1)) /\ transfer_status t = "created" /\
   transfer_provider t = None /\
   fst (processPaymentFromMeToProvider sample_env (transfer_id t) w1) = inl err_type_error /\
   snd (processPaymentFromMeToProvider sample_env (transfer_id t) w1) = w1).
Proof.
  intros t w1; split; [vm_compute; reflexivity|].
  exact (settlement_transfer_not_dispatchable sample_env sample_req sample_world _ t
           eq_refl (fun x Hx => match Hx with end)).
Defined.

Lemma app_failure_no_write (env : AppEnv) (s : AppStore) :
  (forall b e, fst (register env b s) = inl e -> snd (register env b s) = s) /\
  (forall em pw ip ua e, fst (login env em pw ip ua s) = inl e ->
     snd (login env em pw ip ua s) = s) /\
  (forall u e, fst (logout env u s) = inl e -> snd (logout env u s) = s) /\
  (forall u pw e, fst (resetPassword env u pw s) = inl e ->
     snd (resetPassword env u pw s) = s) /\
  (forall u sid ts e, fst (createServiceRequest env u sid ts s) = inl e ->
     snd (createServiceRequest env u sid ts s) = s) /\
  (forall u id e, fst (acceptRequest u id s) = inl e -> snd (acceptRequest u id s) = s) /\
  (forall u id e, fst (rejectRequest u id s) = inl e -> snd (rejectRequest u id s) = s) /\
  (forall u id a e, fst (generateBill env u id a s) = inl e ->
     snd (generateBill env u id a s) = s) /\
  (forall u id e, fst (deleteService u id s) = inl e -> snd (deleteService u id s) = s) /\
  (forall u id r c e, fst (submitReview env u id r c s) = inl e ->
     snd (submitReview env u id r c s) = s).
Proof.
  repeat split; intros *; run_app; intros; try discriminate; reflexivity.
Qed.

Lemma register_ok (env : AppEnv) (b : RegisterBody) (s : AppStore) id :
  fst (register env b s) = inr id ->
  exists u,
    truthy (rb_email b) = true /\ truthy (rb_password b) = true /\
    find (has_email env (rb_email b)) (users s) = None /\
    new_user env (app_next_id s) b = Some u /\ id = u_id u /\
    existsb (fun x => String.eqb (u_email x) (u_email u)) (users s) = false /\
    snd (register env b s) = bump_app_id (set_users s (users s ++ [u])%list).
Proof.
  run_app; intros H; try discriminate; injection H as <-; bool_facts.
  eexists; repeat split; eauto.
Qed.

Lemma new_user_inv (env : AppEnv) (id : nat) (b : RegisterBody) (u : User) :
  new_user env id b = Some u ->
  exists e p, email_query env (rb_email b) = Some e /\
              cast_string env (rb_password b) = Some p /\ 8 <= js_length env p /\
              u_email u = e /\ u_password u = bcrypt_hash env p /\ u_id u = id.
Proof.
  unfold new_user; split_matches; intros H; try discriminate.
  injection H as <-; bool_facts; do 2 eexists; repeat split; eauto.
Qed.

Lemma login_ok (env : AppEnv) em pw ip ua (s : AppStore) t u :
  fst (login env em pw ip ua s) = inr (t, u) ->
  exists p,
    pw = JStr p /\ truthy em = true /\ p <> "" /\
    find (has_email env em) (users s) = Some u /\
    bcrypt_compare env p (u_password u) = true /\
    snd (login env em pw ip ua s)
    = bump_app_id (set_sessions s (sessions s ++
        [mkSession (app_next_id s) (u_id u) ip ua (session_active_default env) None])%list).
Proof.
  run_app; intros H; try discriminate; injection H as <- <-; bool_facts.
  eexists; repeat split; eauto.
  intros ->; discriminate.
Qed.

Lemma logout_ok (env : AppEnv) user (s : AppStore) :
  fst (logout env user s) = inr tt ->
  exists x l,
    update_first (fun x => Nat.eqb (ses_user x) user && ses_active x)
      (end_session (now env)) (sessions s) = (Some x, l) /\
    snd (logout env user s) = set_sessions s l.
Proof. run_app; intros H; try discriminate; eauto. Qed.

Lemma reset_ok (env : AppEnv) user pw (s : AppStore) :
  fst (resetPassword env user pw s) = inr tt ->
  (exists u, find (fun u => Nat.eqb (u_id u) user) (users s) = Some u /\
     cast_string env pw = Some (u_password u) /\ snd (resetPassword env user pw s) = s) \/
  exists u p,
    find (fun u => Nat.eqb (u_id u) user) (users s) = Some u /\
    cast_string env pw = Some p /\ p <> u_password u /\ 8 <= js_length env p /\
    snd (resetPassword env user pw s)
    = set_users s (update_user_password (u_id u) (bcrypt_hash env p) (users s)).
Proof.
  run_app; intros H; try discriminate; bool_facts.
  { left; match goal with E : String.eqb _ _ = true |- _ => apply String.eqb_eq in E end;
    subst; eauto. }
  right.
  do 2 eexists; repeat split; eauto.
  apply String.eqb_neq; assumption.
Qed.

Lemma create_request_ok (env : AppEnv) user sv ts (s : AppStore) id :
  fst (createServiceRequest env user sv ts s) = inr id ->
  exists sid t,
    to_object_id env sv = Some sid /\ parse_date env ts = Some t /\
    (now env <= t)%Z /\ find_service sid s <> None /\ id = app_next_id s /\
    snd (createServiceRequest env user sv ts s)
    = bump_app_id (set_service_requests s
        (service_requests s ++ [mkRequestDoc (app_next_id s) sid user t pending])%list).
Proof.
  run_app; intros H; try discriminate; injection H as <-; bool_facts.
  do 2 eexists; repeat split; eauto.
  unfold find_service; congruence.
Qed.

Lemma accept_ok user id (s : AppStore) :
  fst (acceptRequest user id s) = inr tt ->
  exists sr svc,
    find_service_request id s = Some sr /\ find_service (rq_service sr) s = Some svc /\
    svc_provider svc = user /\ rq_status sr = pending /\
    snd (acceptRequest user id s)
    = set_service_requests s (update_request_status (rq_id sr) accepted (service_requests s)).
Proof. run_app; intros H; try discriminate; bool_facts; do 2 eexists; repeat split; eauto. Qed.

Lemma reject_ok user id (s : AppStore) :
  fst (rejectRequest user id s) = inr tt ->
  exists sr svc,
    find_service_request id s = Some sr /\ find_service (rq_service sr) s = Some svc /\
    svc_provider svc = user /\ rq_status sr = pending /\
    snd (rejectRequest user id s)
    = set_service_requests s (update_request_status (rq_id sr) rejected (service_requests s)).
Proof. run_app; intros H; try discriminate; bool_facts; do 2 eexists; repeat split; eauto. Qed.

Lemma bill_ok (env : AppEnv) user id a (s : AppStore) bid :
  fst (generateBill env user id a s) = inr bid ->
  exists sr svc x,
    truthy a = true /\ js_le env a 0%Q = false /\
    find_service_request id s = Some sr /\ find_service (rq_service sr) s = Some svc /\
    svc_provider svc = user /\ rq_status sr = accepted /\
    find (fun b => Nat.eqb (gb_request b) id) (bill_docs s) = None /\
    cast_number env a = Some x /\ bid = app_next_id s /\
    snd (generateBill env user id a s)
    = bump_app_id (set_bill_docs s (bill_docs s ++ [mkBillDoc (app_next_id s) id x unpaid])%list).
Proof.
  run_app; intros H; try discriminate; injection H as <-; bool_facts.
  do 3 eexists; repeat split; eauto.
Qed.

Lemma delete_ok user id (s : AppStore) :
  fst (deleteService user id s) = inr tt ->
  exists svc,
    find_service id s = Some svc /\ svc_provider svc = user /\
    snd (deleteService user id s)
    = set_services s (delete_first (fun v => Nat.eqb (svc_id v) id) (services s)).
Proof. run_app; intros H; try discriminate; bool_facts; eexists; repeat split; eauto. Qed.

Lemma review_ok (env : AppEnv) user id r c (s : AppStore) :
  fst (submitReview env user id r c s) = inr tt ->
  truthy r = true /\ truthy c = true /\ js_lt env r 1%Q = false /\
  js_gt env r 5%Q = false /\ find_service id s <> None /\
  find (fun x => Nat.eqb (rv_service x) id && Nat.eqb (rv_customer x) user) (reviews s)
    = None /\
  review_valid env (mkReview (app_next_id s) id user r c) = true /\
  snd (submitReview env user id r c s)
  = bump_app_id (set_reviews s (reviews s ++ [mkReview (app_next_id s) id user r c])%list).
Proof.
  run_app; intros H; try discriminate; bool_facts; repeat split; eauto;
    unfold find_service; congruence.
Qed.

(** List lemmas *)

Lemma find_split {A} (p : A -> bool) (l : list A) (x : A) :
  find p l = Some x ->
  exists l1 l2, l = (l1 ++ x :: l2)%list /\ Forall (fun y => p y = false) l1 /\ p x = true.
Proof.
  induction l as [|y l IH]; simpl; intros H; [discriminate|].
  destruct (p y) eqn:Ey.
  - injection H as <-. exists [], l; auto.
  - destruct (IH H) as (l1 & l2 & -> & Hf & Hx). exists (y :: l1), l2; auto.
Qed.

Lemma update_first_app_skip {A} (p : A -> bool) (f : A -> A) (l1 l2 : list A) :
  Forall (fun y => p y = false) l1 ->
  update_first p f (l1 ++ l2) = (fst (update_first p f l2), l1 ++ snd (update_first p f l2))%list.
Proof.
  induction 1 as [|y l1 Hy _ IH]; simpl.
  - destruct (update_first p f l2); reflexivity.
  - rewrite Hy, IH; reflexivity.
Qed.

Lemma find_update_first {A} (p : A -> bool) (f : A -> A) (l : list A) (x : A) :
  find p l = Some x ->
  exists l1 l2, l = (l1 ++ x :: l2)%list /\ Forall (fun y => p y = false) l1 /\
    update_first p f l = (Some (f x), l1 ++ f x :: l2)%list.
Proof.
  intros H; destruct (find_split p l x H) as (l1 & l2 & -> & Hf & Hx).
  exists l1, l2; repeat split; auto.
  rewrite (update_first_app_skip _ _ _ _ Hf); simpl; rewrite Hx; reflexivity.
Qed.

Lemma update_first_none_eq {A} (p : A -> bool) (f : A -> A) (l l' : list A) :
  update_first p f l = (None, l') -> l' = l /\ Forall (fun y => p y = false) l.
Proof.
  revert l'; induction l as [|y l IH]; simpl; intros l' H.
  - injection H as <-; auto.
  - destruct (p y) eqn:Ey; [discriminate|].
    destruct (update_first p f l) as [r l''] eqn:E; injection H as -> <-.
    destruct (IH l'' eq_refl) as [-> Hf]; auto.
Qed.

Lemma update_first_some_split {A} (p : A -> bool) (f : A -> A) (l l' : list A) (x : A) :
  update_first p f l = (Some x, l') ->
  exists l1 y l2, l = (l1 ++ y :: l2)%list /\ l' = (l1 ++ f y :: l2)%list /\
    Forall (fun z => p z = false) l1 /\ p y = true /\ x = f y.
Proof.
  revert l'; induction l as [|y l IH]; simpl; intros l' H; [discriminate|].
  destruct (p y) eqn:Ey.
  - injection H as <- <-. exists [], y, l; auto.
  - destruct (update_first p f l) as [r l''] eqn:E; injection H as -> <-.
    destruct (IH l'' eq_refl) as (l1 & z & l2 & -> & -> & Hf & Hz & ->).
    exists (y :: l1), z, l2; simpl; auto.
Qed.

Lemma find_after_update {A} (p : A -> bool) (f : A -> A) (l : list A) (x : A) :
  find p l = Some x -> p (f x) = true ->
  find p (snd (update_first p f l)) = Some (f x).
Proof.
  intros H Hfx; destruct (find_update_first p f l x H) as (l1 & l2 & -> & Hf & ->); simpl.
  clear H; induction Hf as [|y l1 Hy _ IH]; simpl; [rewrite Hfx; reflexivity|].
  rewrite Hy; exact IH.
Qed.

Lemma find_none_forall {A} (p : A -> bool) (l : list A) :
  find p l = None -> forall x, In x l -> p x = false.
Proof.
  induction l as [|y l IH]; simpl; intros H x Hx; [contradiction|].
  destruct (p y) eqn:Ey; [discriminate|].
  destruct Hx as [<-|Hx]; auto.
Qed.

Lemma find_some_in {A} (p : A -> bool) (l : list A) (x : A) :
  find p l = Some x -> In x l /\ p x = true.
Proof. intros H; split; [eapply find_some; eauto | eapply find_some; eauto]. Qed.

Lemma existsb_false_forall {A} (f : A -> bool) (l : list A) :
  existsb f l = false -> forall x, In x l -> f x = false.
Proof.
  intros H x Hx; destruct (f x) eqn:E; auto.
  assert (existsb f l = true) by (apply existsb_exists; eauto); congruence.
Qed.

Lemma NoDup_snoc {A} (l : list A) (a : A) :
  NoDup l -> ~ In a l -> NoDup (l ++ [a])%list.
Proof.
  intros Hl Ha; apply NoDup_app; auto.
  - constructor; [intros []|constructor].
  - intros x Hx [<-|[]]; contradiction.
Qed.

Lemma Forall2_refl_on {A} (R : A -> A -> Prop) (l : list A) :
  (forall x, R x x) -> Forall2 R l l.
Proof. intros HR; induction l; constructor; auto. Qed.

Lemma Forall2_trans_on {A} (R : A -> A -> Prop) (l1 l2 l3 : list A) :
  (forall x y z, R x y -> R y z -> R x z) ->
  Forall2 R l1 l2 -> Forall2 R l2 l3 -> Forall2 R l1 l3.
Proof.
  intros HR H12; revert l3; induction H12; intros l3 H23; inversion H23; subst;
    constructor; eauto.
Qed.

Lemma Forall2_in_l {A B} (R : A -> B -> Prop) (l : list A) (k : list B) (x : A) :
  Forall2 R l k -> In x l -> exists y, In y k /\ R x y.
Proof.
  induction 1 as [|a b l k Hab _ IH]; simpl; [contradiction|].
  intros [<-|Hx]; [exists b; auto|].
  destruct (IH Hx) as (y & Hy & Hr); exists y; auto.
Qed.

Lemma Forall_update_first {A} (P : A -> Prop) (p : A -> bool) (f : A -> A) (l : list A) :
  Forall P l -> (forall y, P y -> p y = true -> P (f y)) ->
  Forall P (snd (update_first p f l)).
Proof.
  intros Hl Hf; induction Hl as [|y l Hy Hl IH]; simpl; [constructor|].
  destruct (p y) eqn:Ey; simpl.
  - constructor; auto.
  - destruct (update_first p f l); simpl in *; constructor; auto.
Qed.

Lemma Forall_delete_first {A} (P : A -> Prop) (p : A -> bool) (l : list A) :
  Forall P l -> Forall P (delete_first p l).
Proof.
  induction 1 as [|y l Hy Hl IH]; simpl; [constructor|].
  destruct (p y); auto.
Qed.

Lemma find_delete_first_nodup {A} (g : A -> nat) (k : nat) (l : list A) :
  NoDup (map g l) -> find (fun x => Nat.eqb (g x) k) (delete_first (fun x => Nat.eqb (g x) k) l) = None.
Proof.
  induction l as [|y l IH]; simpl; intros Hnd; [reflexivity|].
  inversion Hnd as [|? ? Hni Hnd']; subst.
  destruct (Nat.eqb (g y) k) eqn:Ey.
  - apply Nat.eqb_eq in Ey; subst k.
    destruct (find (fun x => Nat.eqb (g x) (g y)) l) as [z|] eqn:Ez; [|reflexivity].
    destruct (find_some_in _ _ _ Ez) as [Hz Hgz]; apply Nat.eqb_eq in Hgz.
    exfalso; apply Hni; rewrite <- Hgz; apply in_map; exact Hz.
  - simpl; rewrite Ey; auto.
Qed.

(** What one handler does to the store: nothing, or the write of its
    success path. *)
Lemma run_app_op_effect (env : AppEnv) (op : AppOp) (s : AppStore) :
  run_app_op env op s = s \/
  match op with
  | Register b =>
      exists u, find (has_email env (rb_email b)) (users s) = None /\
        new_user env (app_next_id s) b = Some u /\
        existsb (fun x => String.eqb (u_email x) (u_email u)) (users s) = false /\
        run_app_op env op s = bump_app_id (set_users s (users s ++ [u])%list)
  | Login e pw ip ua =>
      exists p u, pw = JStr p /\ find (has_email env e) (users s) = Some u /\
        bcrypt_compare env p (u_password u) = true /\
        run_app_op env op s
        = bump_app_id (set_sessions s (sessions s ++
            [mkSession (app_next_id s) (u_id u) ip ua (session_active_default env) None])%list)
  | Logout user =>
      exists x l, update_first (fun x => Nat.eqb (ses_user x) user && ses_active x)
                    (end_session (now env)) (sessions s) = (Some x, l) /\
        run_app_op env op s = set_sessions s l
  | ResetPassword user pw =>
      exists u p, find (fun u => Nat.eqb (u_id u) user) (users s) = Some u /\
        cast_string env pw = Some p /\ 8 <= js_length env p /\
        run_app_op env op s
        = set_users s (update_user_password (u_id u) (bcrypt_hash env p) (users s))
  | CreateServiceRequest user sv ts =>
      exists sid t, find_service sid s <> None /\
        run_app_op env op s
        = bump_app_id (set_service_requests s
            (service_requests s ++ [mkRequestDoc (app_next_id s) sid user t pending])%list)
  | AcceptRequest user id =>
      exists sr svc, find_service_request id s = Some sr /\
        find_service (rq_service sr) s = Some svc /\ svc_provider svc = user /\
        rq_status sr = pending /\
        run_app_op env op s
        = set_service_requests s (update_request_status (rq_id sr) accepted (service_requests s))
  | RejectRequest user id =>
      exists sr svc, find_service_request id s = Some sr /\
        find_service (rq_service sr) s = Some svc /\ svc_provider svc = user /\
        rq_status sr = pending /\
        run_app_op env op s
        = set_service_requests s (update_request_status (rq_id sr) rejected (service_requests s))
  | GenerateBill user id a =>
      exists sr x, truthy a = true /\ js_le env a 0%Q = false /\
        find_service_request id s = Some sr /\ rq_status sr = accepted /\
        find (fun b => Nat.eqb (gb_request b) id) (bill_docs s) = None /\
        cast_number env a = Some x /\
        run_app_op env op s
        = bump_app_id (set_bill_docs s (bill_docs s ++ [mkBillDoc (app_next_id s) id x unpaid])%list)
  | DeleteService user id =>
      run_app_op env op s
      = set_services s (delete_first (fun v => Nat.eqb (svc_id v) id) (services s))
  | SubmitReview user id r c =>
      js_lt env r 1%Q = false /\ js_gt env r 5%Q = false /\
      find (fun x => Nat.eqb (rv_service x) id && Nat.eqb (rv_customer x) user) (reviews s)
        = None /\
      run_app_op env op s
      = bump_app_id (set_reviews s (reviews s ++ [mkReview (app_next_id s) id user r c])%list)
  end.
Proof.
  destruct (app_failure_no_write env s) as
    (Freg & Flog & Fout & Freset & Fcreate & Facc & Frej & Fbill & Fdel & Frev).
  destruct op; simpl.
  - destruct (fst (register env b s)) as [e|id] eqn:E; [left; eauto|right].
    destruct (register_ok _ _ _ _ E) as (u & _ & _ & ? & ? & _ & ? & ?); eauto 10.
  - destruct (fst (login env email password ip userAgent s)) as [e|[t u]] eqn:E;
      [left; eauto|right].
    destruct (login_ok _ _ _ _ _ _ _ _ E) as (p & ? & _ & _ & ? & ? & ?); eauto 10.
  - destruct (fst (logout env user s)) as [e|[]] eqn:E; [left; eauto|right].
    destruct (logout_ok _ _ _ E) as (x & l & ? & ?); eauto.
  - destruct (fst (resetPassword env user new_password s)) as [e|[]] eqn:E;
      [left; eauto|].
    destruct (reset_ok _ _ _ _ E) as [(u & _ & _ & ?)|(u & p & ? & ? & _ & ? & ?)];
      [left|right]; eauto 10.
  - destruct (fst (createServiceRequest env user service_id time_slot s)) as [e|id] eqn:E;
      [left; eauto|right].
    destruct (create_request_ok _ _ _ _ _ _ E) as (sid & t & _ & _ & _ & ? & _ & ?); eauto.
  - destruct (fst (acceptRequest user id s)) as [e|[]] eqn:E; [left; eauto|right].
    destruct (accept_ok _ _ _ E) as (sr & svc & ?); eauto.
  - destruct (fst (rejectRequest user id s)) as [e|[]] eqn:E; [left; eauto|right].
    destruct (reject_ok _ _ _ E) as (sr & svc & ?); eauto.
  - destruct (fst (generateBill env user id amount s)) as [e|bid] eqn:E; [left; eauto|right].
    destruct (bill_ok _ _ _ _ _ _ E) as (sr & svc & x & ? & ? & ? & _ & _ & ? & ? & ? & _ & ?);
      eauto 15.
  - destruct (fst (deleteService user id s)) as [e|[]] eqn:E; [left; eauto|right].
    destruct (delete_ok _ _ _ E) as (svc & _ & _ & ?); eauto.
  - destruct (fst (submitReview env user id rating comment s)) as [e|[]] eqn:E;
      [left; eauto|right].
    destruct (review_ok _ _ _ _ _ _ E) as (_ & _ & ? & ? & _ & ? & _ & ?); eauto.
Qed.

(** The request lifecycle *)

Lemma status_step_refl st : status_step st st.
Proof. left; reflexivity. Qed.

Lemma status_step_trans a b c : status_step a b -> status_step b c -> status_step a c.
Proof.
  unfold status_step; intros [->|[-> Hb]] [->|[-> Hc]]; auto;
    destruct Hb as [Hb|Hb]; discriminate.
Qed.

Lemma rq_same_refl x : rq_same x x.
Proof. repeat split; apply status_step_refl. Qed.

Lemma rq_same_trans x y z : rq_same x y -> rq_same y z -> rq_same x z.
Proof.
  intros (? & ? & ? & ? & ?) (? & ? & ? & ? & ?); repeat split; try congruence.
  eapply status_step_trans; eauto.
Qed.

Lemma requests_evolve_refl l : requests_evolve l l.
Proof.
  exists l, []; rewrite app_nil_r; repeat split; [|constructor].
  apply (Forall2_refl_on rq_same); apply rq_same_refl.
Qed.

Lemma requests_evolve_trans l1 l2 l3 :
  requests_evolve l1 l2 -> requests_evolve l2 l3 -> requests_evolve l1 l3.
Proof.
  intros (k1 & a1 & -> & H1 & Ha1) (k2 & a2 & -> & H2 & Ha2).
  apply Forall2_app_inv_l in H2 as (k2a & k2b & H2a & H2b & ->).
  exists k2a, (k2b ++ a2)%list; split; [symmetry; apply app_assoc|split].
  - exact (Forall2_trans_on rq_same _ _ _ rq_same_trans H1 H2a).
  - apply Forall_app; split; auto.
    clear H1 H2a Ha2; induction H2b as [|x y a1 k2b Hxy _ IH]; constructor.
    + inversion Ha1; subst. destruct Hxy as (_ & _ & _ & _ & Hs).
      eapply status_step_trans; eauto.
    + inversion Ha1; auto.
Qed.

Lemma requests_evolve_snoc l r :
  rq_status r = pending -> requests_evolve l (l ++ [r])%list.
Proof.
  intros Hr; exists l, [r]; repeat split.
  - apply (Forall2_refl_on rq_same); apply rq_same_refl.
  - constructor; [rewrite Hr; apply status_step_refl|constructor].
Qed.

Lemma requests_evolve_update l id sr st :
  find (fun r => Nat.eqb (rq_id r) id) l = Some sr -> status_step (rq_status sr) st ->
  requests_evolve l (update_request_status (rq_id sr) st l).
Proof.
  intros Hf Hst; unfold update_request_status.
  destruct (find_some_in _ _ _ Hf) as [_ Hid]; apply Nat.eqb_eq in Hid; subst id.
  destruct (find_update_first _ (fun x => set_request_status x st) _ _ Hf)
    as (l1 & l2 & -> & _ & ->); simpl.
  exists (l1 ++ set_request_status sr st :: l2)%list, []; rewrite app_nil_r.
  repeat split; [|constructor].
  apply Forall2_app; [apply (Forall2_refl_on rq_same); apply rq_same_refl|].
  constructor; [repeat split; exact Hst|].
  apply (Forall2_refl_on rq_same); apply rq_same_refl.
Qed.

Lemma op_requests_evolve env op s :
  requests_evolve (service_requests s) (service_requests (run_app_op env op s)).
Proof.
  destruct (run_app_op_effect env op s) as [E|H]; [rewrite E; apply requests_evolve_refl|].
  destruct op; cbv beta iota in H.
  - destruct H as (u & _ & _ & _ & ->); apply requests_evolve_refl.
  - destruct H as (p & u & _ & _ & _ & ->); apply requests_evolve_refl.
  - destruct H as (x & l & _ & ->); apply requests_evolve_refl.
  - destruct H as (u & p & _ & _ & _ & ->); apply requests_evolve_refl.
  - destruct H as (sid & t & _ & ->); apply requests_evolve_snoc; reflexivity.
  - destruct H as (sr & svc & Hf & _ & _ & Hp & ->); simpl.
    apply (requests_evolve_update _ id); [exact Hf|right; auto].
  - destruct H as (sr & svc & Hf & _ & _ & Hp & ->); simpl.
    apply (requests_evolve_update _ id); [exact Hf|right; auto].
  - destruct H as (sr & x & _ & _ & _ & _ & _ & _ & ->); apply requests_evolve_refl.
  - rewrite H; apply requests_evolve_refl.
  - destruct H as (_ & _ & _ & ->); apply requests_evolve_refl.
Qed.

Lemma ops_requests_evolve env ops s :
  requests_evolve (service_requests s) (service_requests (run_app_ops env ops s)).
Proof.
  revert s; induction ops as [|op ops IH]; simpl; intros s; [apply requests_evolve_refl|].
  eapply requests_evolve_trans; [apply op_requests_evolve|apply IH].
Qed.

(** Bills *)

Lemma bill_backed_evolve l l' b :
  requests_evolve l l' -> bill_backed l b -> bill_backed l' b.
Proof.
  intros (k & a & -> & HF & _) (r & Hin & Hid & Hst).
  destruct (Forall2_in_l _ _ _ _ HF Hin) as (y & Hy & Hid' & _ & _ & _ & Hs).
  exists y; repeat split.
  - apply in_or_app; auto.
  - congruence.
  - rewrite Hst in Hs; destruct Hs as [Hs|[Hs _]]; [exact Hs|discriminate].
Qed.

Lemma amount_positive env a x :
  truthy a = true -> js_le env a 0%Q = false -> cast_number env a = Some x -> (0 < x)%Q.
Proof.
  unfold js_le; destruct a as [| |b|q|str]; simpl; intros Ht Hle Hc; try discriminate.
  - destruct b; [|discriminate]. injection Hc as <-. reflexivity.
  - injection Hc as <-. apply Qnot_le_lt; intros Hq; apply Qle_bool_iff in Hq; congruence.
  - destruct (String.eqb str "") eqn:E; [discriminate|]. rewrite Hc in Hle.
    apply Qnot_le_lt; intros Hq; apply Qle_bool_iff in Hq; congruence.
Qed.

Lemma op_bills_inv env op s : bills_inv s -> bills_inv (run_app_op env op s).
Proof.
  unfold bills_inv; intros (Hnd & Hpos & Hbk).
  pose proof (op_requests_evolve env op s) as Hev.
  assert (Hbk' : Forall (bill_backed (service_requests (run_app_op env op s))) (bill_docs s))
    by (eapply Forall_impl; [|exact Hbk]; intros; eapply bill_backed_evolve; eauto).
  destruct (run_app_op_effect env op s) as [E|H]; [rewrite E; split; auto|].
  destruct op; cbv beta iota in H.
  1-7, 9-10: repeat match type of H with
                    | ex _ => destruct H as [? H]
                    | _ /\ _ => destruct H as [? H]
                    end;
             rewrite H in Hbk' |- *; simpl in *; repeat split; auto.
  destruct H as (sr & x & Ht & Hle & Hf & Hst & Hnb & Hc & Hrun).
  rewrite Hrun in Hbk' |- *; simpl in *.
  destruct (find_some_in _ _ _ Hf) as [Hin Hid]; apply Nat.eqb_eq in Hid.
  repeat split.
  - rewrite map_app; apply NoDup_snoc; auto.
    intros Hin'; apply in_map_iff in Hin' as (b & Hb & Hbin).
    pose proof (find_none_forall _ _ Hnb b Hbin) as Hb'; simpl in Hb'.
    rewrite Hb, Nat.eqb_refl in Hb'; discriminate.
  - apply Forall_app; split; auto. constructor; [|constructor].
    exact (amount_positive _ _ _ Ht Hle Hc).
  - apply Forall_app; split; auto. constructor; [|constructor].
    exists sr; auto.
Qed.

(** Reviews *)

Lemma rating_checked env id user r c n :
  js_lt env r 1%Q = false -> js_gt env r 5%Q = false ->
  rating_in_range env (mkReview n id user r c).
Proof.
  unfold rating_in_range, js_lt, js_gt; simpl; intros Hlt Hgt x Hx.
  rewrite Hx in Hlt, Hgt. apply negb_false_iff in Hlt, Hgt.
  split; apply Qle_bool_iff; assumption.
Qed.

Lemma op_reviews_inv env op s : reviews_inv env s -> reviews_inv env (run_app_op env op s).
Proof.
  unfold reviews_inv; intros (Hnd & Hr).
  destruct (run_app_op_effect env op s) as [E|H]; [rewrite E; split; auto|].
  destruct op; cbv beta iota in H.
  1-9: repeat match type of H with
              | ex _ => destruct H as [? H]
              | _ /\ _ => destruct H as [? H]
              end;
       rewrite H; simpl; split; auto.
  destruct H as (Hlt & Hgt & Hnr & Hrun); rewrite Hrun; simpl; split.
  - rewrite map_app; apply NoDup_snoc; auto.
    intros Hin; apply in_map_iff in Hin as (x & Hx & Hxin).
    pose proof (find_none_forall _ _ Hnr x Hxin) as Hx'; simpl in Hx'.
    injection Hx as E1 E2; rewrite E1, E2, !Nat.eqb_refl in Hx'; discriminate.
  - apply Forall_app; split; auto. constructor; [|constructor].
    apply rating_checked; assumption.
Qed.

(** Users *)

Lemma op_users_inv env op s : users_inv env s -> users_inv env (run_app_op env op s).
Proof.
  unfold users_inv; intros (Hnd & Hp).
  destruct (run_app_op_effect env op s) as [E|H]; [rewrite E; split; auto|].
  destruct op; cbv beta iota in H.
  2-3, 5-10: repeat match type of H with
                    | ex _ => destruct H as [? H]
                    | _ /\ _ => destruct H as [? H]
                    end;
             rewrite H; simpl; split; auto.
  - destruct H as (u & _ & Hnu & Hex & Hrun); rewrite Hrun; simpl.
    destruct (new_user_inv _ _ _ _ Hnu) as (e & p & _ & _ & Hlen & _ & Hpw & _).
    split.
    + rewrite map_app; apply NoDup_snoc; auto.
      intros Hin; apply in_map_iff in Hin as (x & Hx & Hxin).
      pose proof (existsb_false_forall _ _ Hex x Hxin) as Hx'; simpl in Hx'.
      rewrite Hx, String.eqb_refl in Hx'; discriminate.
    + apply Forall_app; split; auto. constructor; [|constructor].
      exists p; auto.
  - destruct H as (u & p & _ & _ & Hlen & Hrun); rewrite Hrun; simpl.
    unfold update_user_password; split.
    + rewrite update_first_map; auto.
    + apply Forall_update_first; auto.
      intros y _ _; exists p; auto.
Qed.

(** Fresh ids *)





Lemma ops_preserve (P : AppStore -> Prop) env ops s :
  (forall op s, P s -> P (run_app_op env op s)) -> P s -> P (run_app_ops env ops s).
Proof.
  intros Hop; revert s; induction ops as [|op ops IH]; simpl; auto.
Qed.

Lemma nodup_map_inj {A} (g : A -> nat) (l : list A) (x y : A) :
  NoDup (map g l) -> In x l -> In y l -> g x = g y -> x = y.
Proof.
  induction l as [|z l IH]; simpl; intros Hnd Hx Hy E; [contradiction|].
  inversion Hnd as [|? ? Hni Hnd']; subst.
  destruct Hx as [<-|Hx], Hy as [<-|Hy]; auto.
  - exfalso; apply Hni; rewrite E; apply in_map; exact Hy.
  - exfalso; apply Hni; rewrite <- E; apply in_map; exact Hx.
Qed.

Lemma map_cond_id {A} (g : A -> nat) (k : nat) (f : A -> A) (l : list A) :
  (forall y, In y l -> Nat.eqb (g y) k = false) ->
  map (fun y => if Nat.eqb (g y) k then f y else y) l = l.
Proof.
  induction l as [|w l IH]; simpl; intros H; [reflexivity|].
  rewrite (H w (or_introl eq_refl)); f_equal; apply IH; auto.
Qed.

Lemma update_first_nodup_map {A} (g : A -> nat) (k : nat) (f : A -> A) (l : list A) :
  NoDup (map g l) ->
  snd (update_first (fun x => Nat.eqb (g x) k) f l)
  = map (fun y => if Nat.eqb (g y) k then f y else y) l.
Proof.
  induction l as [|z l IH]; simpl; intros Hnd; [reflexivity|].
  inversion Hnd as [|? ? Hni Hnd']; subst.
  destruct (Nat.eqb (g z) k) eqn:Ez; simpl.
  - apply Nat.eqb_eq in Ez; subst k; f_equal; symmetry; apply map_cond_id.
    intros y Hy; apply Nat.eqb_neq; intros E; apply Hni; rewrite <- E; apply in_map; exact Hy.
  - destruct (update_first (fun x => Nat.eqb (g x) k) f l) eqn:E; simpl in *.
    f_equal; apply IH; exact Hnd'.
Qed.

Lemma find_map_same {A} (q : A -> bool) (h : A -> A) (l : list A) :
  (forall y, q (h y) = q y) -> find q (map h l) = option_map h (find q l).
Proof.
  intros Hq; induction l as [|y l IH]; simpl; [reflexivity|].
  rewrite Hq; destruct (q y); auto.
Qed.

(** ** Extra theorems: the request lifecycle *)

Lemma decided_request (user id : nat) (s : AppStore) (sr : RequestDoc) (svc : ServiceDoc)
  (st : RequestStatus) :
  find_service_request id s = Some sr -> find_service (rq_service sr) s = Some svc ->
  let s' := set_service_requests s (update_request_status (rq_id sr) st (service_requests s)) in
  find_service_request id s' = Some (set_request_status sr st) /\
  find_service (rq_service (set_request_status sr st)) s' = Some svc.
Proof.
  intros Hf Hs s'; subst s'; unfold find_service_request, find_service in *; simpl.
  destruct (find_some_in _ _ _ Hf) as [_ Hid]; apply Nat.eqb_eq in Hid; subst id.
  split; [|exact Hs].
  apply (find_after_update _ (fun x => set_request_status x st)); [exact Hf|simpl; apply Nat.eqb_refl].
Qed.

(** Once its provider has accepted a request, accepting it again answers
    'Request is already accepted' and rejecting it answers 'Cannot reject
    accepted request', both without a write. *)
Theorem accept_then_decided (user id : nat) (s : AppStore) :
  fst (acceptRequest user id s) = inr tt ->
  let s' := snd (acceptRequest user id s) in
  acceptRequest user id s' = (inl (AppErr "Request is already accepted" 400), s') /\
  rejectRequest user id s' = (inl (AppErr "Cannot reject accepted request" 400), s').
Proof.
  intros H s'; subst s'.
  destruct (accept_ok _ _ _ H) as (sr & svc & Hf & Hs & Hp & _ & ->).
  destruct (decided_request user id s sr svc accepted Hf Hs) as [Hf' Hs'].
  unfold acceptRequest, rejectRequest, st_bind, st_get, st_reject_if, st_fail, st_ret.
  rewrite Hf', Hs', Hp, Nat.eqb_refl; split; reflexivity.
Qed.

(** Once its provider has rejected a request, accepting or rejecting it
    again is refused, and no bill can be generated for it. *)
Theorem reject_then_decided (env : AppEnv) (user id : nat) (s : AppStore) :
  fst (rejectRequest user id s) = inr tt ->
  let s' := snd (rejectRequest user id s) in
  acceptRequest user id s' = (inl (AppErr "Request is already rejected" 400), s') /\
  rejectRequest user id s' = (inl (AppErr "Cannot reject rejected request" 400), s') /\
  (forall a, truthy a = true -> js_le env a 0%Q = false ->
     generateBill env user id a s'
     = (inl (AppErr "Bill can only be generated for accepted requests" 400), s')).
Proof.
  intros H s'; subst s'.
  destruct (reject_ok _ _ _ H) as (sr & svc & Hf & Hs & Hp & _ & ->).
  destruct (decided_request user id s sr svc rejected Hf Hs) as [Hf' Hs'].
  unfold acceptRequest, rejectRequest, generateBill, st_bind, st_get, st_reject_if,
    st_fail, st_ret.
  rewrite Hf', Hs', Hp, Nat.eqb_refl; split; [reflexivity|split; [reflexivity|]].
  intros a Ht Hle; rewrite Ht, Hle; cbn [negb orb]; rewrite Hf', Hs', Hp, Nat.eqb_refl; reflexivity.
Qed.

(** A second bill for the same request is refused with 'Bill already exists
    for this request', without a write. *)
Theorem bill_not_duplicated (env : AppEnv) (user id : nat) (a a' : JsVal) (s : AppStore) bid :
  fst (generateBill env user id a s) = inr bid ->
  truthy a' = true -> js_le env a' 0%Q = false ->
  let s' := snd (generateBill env user id a s) in
  generateBill env user id a' s' = (inl err_bill_exists, s').
Proof.
  intros H Ht Hle s'; subst s'.
  destruct (bill_ok _ _ _ _ _ _ H)
    as (sr & svc & x & _ & _ & Hf & Hs & Hp & Hst & Hnb & _ & _ & ->).
  unfold generateBill at 1; unfold st_bind, st_get, st_reject_if, st_fail, st_ret.
  rewrite Ht, Hle; cbn [negb orb].
  unfold find_service_request, find_service in *; simpl.
  rewrite Hf, Hs, Hp, Hst, Nat.eqb_refl; simpl.
  rewrite (find_app_none _ _ _ Hnb); simpl; rewrite Nat.eqb_refl; reflexivity.
Qed.

(** With service ids unique, deleting a service leaves its requests in the
    store, where accepting, rejecting or billing one of them reads the
    provider of a missing service and throws a TypeError. *)
Theorem deleted_service_strands_requests (env : AppEnv) (user id rid : nat) (s : AppStore)
  (r : RequestDoc) :
  NoDup (map svc_id (services s)) ->
  fst (deleteService user id s) = inr tt ->
  find_service_request rid s = Some r -> rq_service r = id ->
  let s' := snd (deleteService user id s) in
  find_service_request rid s' = Some r /\
  forall u, acceptRequest u rid s' = (inl err_type_error, s') /\
            rejectRequest u rid s' = (inl err_type_error, s') /\
            (forall a, truthy a = true -> js_le env a 0%Q = false ->
               generateBill env u rid a s' = (inl err_type_error, s')).
Proof.
  intros Hnd H Hf Hsvc s'; subst s'.
  destruct (delete_ok _ _ _ H) as (svc & _ & _ & ->).
  assert (Hn : find_service id (set_services s (delete_first (fun v => Nat.eqb (svc_id v) id)
                                                   (services s))) = None)
    by (unfold find_service; simpl; apply (find_delete_first_nodup svc_id); exact Hnd).
  unfold find_service_request in *; simpl.
  split; [exact Hf|intros u].
  unfold acceptRequest, rejectRequest, generateBill, find_service_request,
    st_bind, st_get, st_reject_if, st_fail, st_ret; simpl.
  rewrite Hf, Hsvc, Hn; repeat split.
  intros a Ht Hle; rewrite Ht, Hle; simpl; rewrite Hf, Hsvc, Hn; reflexivity.
Qed.

(** A request is accepted or rejected, a bill generated, and a service
    deleted, only by the provider of the service. *)
Theorem only_provider_decides (env : AppEnv) (user id : nat) (s : AppStore) :
  (fst (acceptRequest user id s) = inr tt ->
     exists sr svc, find_service_request id s = Some sr /\
       find_service (rq_service sr) s = Some svc /\ svc_provider svc = user) /\
  (fst (rejectRequest user id s) = inr tt ->
     exists sr svc, find_service_request id s = Some sr /\
       find_service (rq_service sr) s = Some svc /\ svc_provider svc = user) /\
  (forall a bid, fst (generateBill env user id a s) = inr bid ->
     exists sr svc, find_service_request id s = Some sr /\
       find_service (rq_service sr) s = Some svc /\ svc_provider svc = user) /\
  (fst (deleteService user id s) = inr tt ->
     exists svc, find_service id s = Some svc /\ svc_provider svc = user).
Proof.
  repeat split.
  - intros H; destruct (accept_ok _ _ _ H) as (sr & svc & ? & ? & ? & _); eauto.
  - intros H; destruct (reject_ok _ _ _ H) as (sr & svc & ? & ? & ? & _); eauto.
  - intros a bid H; destruct (bill_ok _ _ _ _ _ _ H) as (sr & svc & x & _ & _ & ? & ? & ? & _); eauto.
  - intros H; destruct (delete_ok _ _ _ H) as (svc & ? & ? & _); eauto.
Qed.

(** ** Extra theorems: the accounts *)

Lemma login_found (env : AppEnv) em p ip ua (s : AppStore) (u : User) :
  truthy em = true -> p <> "" -> find (has_email env em) (users s) = Some u ->
  login env em (JStr p) ip ua s
  = if bcrypt_compare env p (u_password u)
    then (inr (jwt_sign env u, u),
          bump_app_id (set_sessions s (sessions s ++
            [mkSession (app_next_id s) (u_id u) ip ua (session_active_default env) None])%list))
    else (inl err_incorrect_login, s).
Proof.
  intros Ht Hp Hf; unfold login, st_bind, st_get, st_fail, st_ret, st_put.
  rewrite Ht; simpl. apply String.eqb_neq in Hp; rewrite Hp; simpl.
  rewrite Hf; destruct (bcrypt_compare env p (u_password u)); reflexivity.
Qed.

Lemma truthy_str p : truthy (JStr p) = true -> p <> "".
Proof. simpl; intros H ->; discriminate. Qed.

(** With a bcrypt whose [compare] accepts exactly the hashed password, a
    user registered with the string password [p] logs in with its email and
    [p], and with no other non-empty password. *)
Theorem register_then_login (env : AppEnv) (b : RegisterBody) (s : AppStore) (id : nat)
  (p : string) :
  bcrypt_sound env -> fst (register env b s) = inr id -> rb_password b = JStr p ->
  let s' := snd (register env b s) in
  exists u, u_id u = id /\ In u (users s') /\
    forall ip ua,
      fst (login env (rb_email b) (JStr p) ip ua s') = inr (jwt_sign env u, u) /\
      (forall q, q <> p -> q <> "" ->
         login env (rb_email b) (JStr q) ip ua s' = (inl err_incorrect_login, s')).
Proof.
  intros Hb H Hpw s'; subst s'.
  destruct (register_ok _ _ _ _ H) as (u & Hte & Htp & Hnf & Hnu & Hid & _ & ->).
  destruct (new_user_inv _ _ _ _ Hnu) as (e & p' & He & Hc & _ & Hue & Hup & _).
  rewrite Hpw in Hc, Htp; injection Hc as <-.
  assert (Hf : find (has_email env (rb_email b)) (users s ++ [u])%list = Some u)
    by (rewrite (find_app_none _ _ _ Hnf); simpl; unfold has_email;
        rewrite He, Hue, String.eqb_refl; reflexivity).
  exists u; repeat split; auto.
  - simpl; apply in_or_app; right; left; reflexivity.
  - rewrite (login_found env _ p ip ua (bump_app_id (set_users s (users s ++ [u])%list)) u Hte
              (truthy_str _ Htp) Hf), Hup, Hb,
      String.eqb_refl; reflexivity.
  - intros q Hq Hq'.
    rewrite (login_found env _ q ip ua (bump_app_id (set_users s (users s ++ [u])%list)) u Hte
              Hq' Hf), Hup, Hb.
    apply String.eqb_neq in Hq; rewrite Hq; reflexivity.
Qed.

(** Registering the same body again answers 'User already exists with this
    email', without a write. *)
Theorem register_twice_refused (env : AppEnv) (b : RegisterBody) (s : AppStore) (id : nat) :
  fst (register env b s) = inr id ->
  let s' := snd (register env b s) in
  register env b s' = (inl err_user_exists, s').
Proof.
  intros H s'; subst s'.
  destruct (register_ok _ _ _ _ H) as (u & _ & _ & Hnf & Hnu & _ & _ & Hs).
  destruct (new_user_inv _ _ _ _ Hnu) as (e & p & He & _ & _ & Hue & _ & _).
  assert (Hf : find (has_email env (rb_email b)) (users s ++ [u])%list = Some u)
    by (rewrite (find_app_none _ _ _ Hnf); simpl; unfold has_email;
        rewrite He, Hue, String.eqb_refl; reflexivity).
  revert H; rewrite Hs; unfold register, st_bind, st_get, st_fail, st_ret, st_put.
  destruct (negb (truthy (rb_name b)) || negb (truthy (rb_email b))
     || negb (truthy (rb_password b)) || negb (truthy (rb_phone_number b))
     || negb (truthy (rb_role b)) || negb (truthy (rb_location_latitude b))
     || negb (truthy (rb_location_longitude b)) || negb (truthy (rb_address b)));
    [discriminate|].
  destruct (is_nan env (rb_location_latitude b) || is_nan env (rb_location_longitude b));
    [discriminate|].
  destruct (negb (valid_role (rb_role b))); [discriminate|].
  intros _; simpl; rewrite Hf; reflexivity.
Qed.

(** With user ids unique and a sound bcrypt, after the user found by the
    email [em] resets its password to a [p] other than its stored hash, [em]
    and [p] log in as that user with its new hash, and no other non-empty
    password does. *)
Theorem reset_then_login (env : AppEnv) (em : JsVal) (p : string) (s : AppStore) (u : User) :
  bcrypt_sound env -> NoDup (map u_id (users s)) -> truthy em = true ->
  find (has_email env em) (users s) = Some u -> p <> u_password u ->
  fst (resetPassword env (u_id u) (JStr p) s) = inr tt ->
  let s' := snd (resetPassword env (u_id u) (JStr p) s) in
  let u' := set_user_password u (bcrypt_hash env p) in
  forall ip ua,
    fst (login env em (JStr p) ip ua s') = inr (jwt_sign env u', u') /\
    (forall q, q <> p -> q <> "" -> login env em (JStr q) ip ua s' = (inl err_incorrect_login, s')).
Proof.
  intros Hb Hnd Ht Hf Hnew H s' u' ip ua; subst s' u'.
  destruct (find_some_in _ _ _ Hf) as [Hin _].
  destruct (reset_ok _ _ _ _ H) as [(u0 & Hf0 & Hc & _)|(u0 & p' & Hf0 & Hc & _ & _ & ->)].
  { exfalso; destruct (find_some_in _ _ _ Hf0) as [Hin0 Hid0]; apply Nat.eqb_eq in Hid0.
    assert (u0 = u) as -> by exact (nodup_map_inj u_id _ _ _ Hnd Hin0 Hin Hid0).
    injection Hc as Hc; exact (Hnew Hc). }
  injection Hc as <-.
  destruct (find_some_in _ _ _ Hf0) as [Hin0 Hid0]; apply Nat.eqb_eq in Hid0.
  assert (u0 = u) as -> by exact (nodup_map_inj u_id _ _ _ Hnd Hin0 Hin Hid0).
  unfold update_user_password; rewrite (update_first_nodup_map u_id _ _ _ Hnd).
  assert (Hf' : find (has_email env em)
                  (map (fun y => if Nat.eqb (u_id y) (u_id u)
                                 then set_user_password y (bcrypt_hash env p) else y)
                       (users s))
                = Some (set_user_password u (bcrypt_hash env p))).
  { rewrite find_map_same, Hf; simpl; [rewrite Nat.eqb_refl; reflexivity|].
    intros y; destruct (Nat.eqb (u_id y) (u_id u)); reflexivity. }
  assert (Hp : p <> "").
  { intros ->. unfold resetPassword in H; simpl in H. discriminate. }
  split.
  - rewrite (login_found env em p ip ua (set_users s _) _ Ht Hp Hf'); simpl.
    rewrite Hb, String.eqb_refl; reflexivity.
  - intros q Hq Hq'; rewrite (login_found env em q ip ua (set_users s _) _ Ht Hq' Hf'); simpl.
    rewrite Hb; apply String.eqb_neq in Hq; rewrite Hq; reflexivity.
Qed.

(** Login answers 'Incorrect email or password' alike for an unknown email
    and for a wrong password, and throws bcrypt's 'Illegal arguments' for a
    known email with a password that is not a string; none of these
    writes. *)
Theorem login_failures (env : AppEnv) (em pw : JsVal) ip ua (s : AppStore) :
  truthy em = true -> truthy pw = true ->
  (find (has_email env em) (users s) = None ->
     login env em pw ip ua s = (inl err_incorrect_login, s)) /\
  (forall u p, find (has_email env em) (users s) = Some u -> pw = JStr p ->
     bcrypt_compare env p (u_password u) = false ->
     login env em pw ip ua s = (inl err_incorrect_login, s)) /\
  (forall u, find (has_email env em) (users s) = Some u -> (forall p, pw <> JStr p) ->
     login env em pw ip ua s = (inl err_bcrypt_args, s)).
Proof.
  intros Ht Hp; unfold login, st_bind, st_get, st_fail, st_ret, st_put.
  rewrite Ht, Hp; simpl; repeat split.
  - intros Hn; rewrite Hn; reflexivity.
  - intros u p Hf -> Hc; rewrite Hf, Hc; reflexivity.
  - intros u Hf Hn; rewrite Hf.
    destruct pw; try reflexivity. exfalso; eapply Hn; reflexivity.
Qed.

Lemma filter_update_first_some {A} (p q : A -> bool) (f : A -> A) (l l' : list A) (x : A) :
  update_first p f l = (Some x, l') ->
  exists y, p y = true /\ In y l /\
    length (filter q l') + (if q y then 1 else 0)
    = length (filter q l) + (if q (f y) then 1 else 0).
Proof.
  intros H; destruct (update_first_some_split _ _ _ _ _ H) as (l1 & y & l2 & -> & -> & _ & Hy & _).
  exists y; split; [exact Hy|split; [apply in_or_app; right; left; reflexivity|]].
  rewrite !filter_app, !length_app; simpl.
  destruct (q y), (q (f y)); simpl; lia.
Qed.

(** Logout ends the first active session of the user: with none it answers
    'No active session found' without a write; otherwise it succeeds and
    replaces that session, and only that one, by its ended copy (inactive,
    logout time [now]): the user's count of active sessions drops by one,
    the number of sessions stays the same, and the sessions of every other
    user stay exactly as they were. *)
Theorem logout_sessions (env : AppEnv) (user : nat) (s : AppStore) :
  (active_sessions user (sessions s) = 0 ->
     logout env user s = (inl err_no_active_session, s)) /\
  (0 < active_sessions user (sessions s) ->
     let s' := snd (logout env user s) in
     fst (logout env user s) = inr tt /\
     active_sessions user (sessions s') = active_sessions user (sessions s) - 1 /\
     length (sessions s') = length (sessions s) /\
     (forall u, u <> user ->
        active_sessions u (sessions s') = active_sessions u (sessions s)) /\
     (forall u, u <> user ->
        filter (fun x => Nat.eqb (ses_user x) u) (sessions s')
        = filter (fun x => Nat.eqb (ses_user x) u) (sessions s)) /\
     exists l1 y l2,
       sessions s = (l1 ++ y :: l2)%list /\
       sessions s' = (l1 ++ end_session (now env) y :: l2)%list /\
       Forall (fun z => Nat.eqb (ses_user z) user && ses_active z = false) l1 /\
       ses_user y = user /\ ses_active y = true).
Proof.
  unfold logout, active_sessions, st_bind, st_get, st_fail, st_put.
  destruct (update_first _ _ (sessions s)) as [[x|] l] eqn:E.
  - destruct (update_first_some_split _ _ _ _ _ E) as (l1 & y0 & l2 & Hs & Hl & Hf0 & Hy0 & _).
    assert (Hlen : length l = length (sessions s))
      by (rewrite Hs, Hl, !length_app; reflexivity).
    apply andb_true_iff in Hy0 as [Hu0 Ha0]; apply Nat.eqb_eq in Hu0.
    destruct (filter_update_first_some _ (fun x => Nat.eqb (ses_user x) user && ses_active x)
                _ _ _ _ E) as (y & Hy & Hin & Hc).
    rewrite Hy in Hc; simpl in Hc; rewrite andb_false_r in Hc.
    split; [intros; lia|intros Hpos; simpl].
    split; [reflexivity|]; split; [lia|]; split; [exact Hlen|]; split; [|split].
    + intros u Hu.
      destruct (filter_update_first_some _ (fun x => Nat.eqb (ses_user x) u && ses_active x)
                  _ _ _ _ E) as (y' & Hy' & _ & Hc').
      apply andb_true_iff in Hy' as [Hy' _]; apply Nat.eqb_eq in Hy'.
      simpl in Hc'; rewrite andb_false_r, Hy' in Hc'.
      apply Nat.eqb_neq in Hu; rewrite Nat.eqb_sym, Hu in Hc'; simpl in Hc'; lia.
    + intros u Hu.
      assert (Hne : Nat.eqb (ses_user y0) u = false) by (apply Nat.eqb_neq; congruence).
      rewrite Hs, Hl, !filter_app; simpl; rewrite Hne; reflexivity.
    + exists l1, y0, l2; repeat split; assumption.
  - destruct (update_first_none_eq _ _ _ _ E) as [-> Hf].
    assert (filter (fun x => Nat.eqb (ses_user x) user && ses_active x) (sessions s) = [])
      as ->.
    { clear E; induction Hf as [|z l Hz _ IH]; simpl; [reflexivity|rewrite Hz; exact IH]. }
    simpl; split; [reflexivity|intros; lia].
Qed.

(** With new Sessions active by default, a successful login adds one
    active session for the user who logged in, and none for any other. *)
Theorem login_opens_session (env : AppEnv) em pw ip ua (s : AppStore) t (u : User) :
  session_active_default env = true ->
  fst (login env em pw ip ua s) = inr (t, u) ->
  let s' := snd (login env em pw ip ua s) in
  active_sessions (u_id u) (sessions s') = S (active_sessions (u_id u) (sessions s)) /\
  forall v, v <> u_id u -> active_sessions v (sessions s') = active_sessions v (sessions s).
Proof.
  intros Hd H s'; subst s'.
  destruct (login_ok _ _ _ _ _ _ _ _ H) as (p & _ & _ & _ & _ & _ & ->).
  unfold active_sessions; simpl; rewrite !filter_app, !length_app; simpl.
  rewrite Hd, Nat.eqb_refl; simpl; split; [lia|].
  intros v Hv; rewrite filter_app, length_app; simpl.
  apply Nat.eqb_neq in Hv; rewrite Nat.eqb_sym, Hv; simpl; lia.
Qed.

(** ** Extra theorems: the customer controller *)

(** [createServiceRequest]: a time slot whose date is in the past is refused
    without a write; an Invalid Date passes that check and fails the
    creation with a ValidationError; a created request is pending, carries
    the next id and a time slot that is not in the past. *)
Theorem createServiceRequest_time_checks (env : AppEnv) (user : nat) (sv ts : JsVal)
  (s : AppStore) :
  truthy sv = true -> truthy ts = true ->
  (forall t, parse_date env ts = Some t -> (t < now env)%Z ->
     createServiceRequest env user sv ts s
     = (inl (AppErr "Time slot must be in the future" 400), s)) /\
  (parse_date env ts = None -> forall sid, to_object_id env sv = Some sid ->
     find_service sid s <> None ->
     createServiceRequest env user sv ts s = (inl err_validation, s)) /\
  (forall id, fst (createServiceRequest env user sv ts s) = inr id ->
     id = app_next_id s /\
     exists sid t, parse_date env ts = Some t /\ (now env <= t)%Z /\
       In (mkRequestDoc id sid user t pending)
          (service_requests (snd (createServiceRequest env user sv ts s)))).
Proof.
  intros Hs Ht; split; [|split].
  - intros t Hp Hlt; unfold createServiceRequest, st_bind, st_reject_if, st_fail.
    rewrite Hs, Ht, Hp; simpl. apply Z.ltb_lt in Hlt; rewrite Hlt; reflexivity.
  - intros Hp sid Hid Hf; unfold createServiceRequest, st_bind, st_reject_if, st_fail,
      st_get, st_ret.
    rewrite Hs, Ht, Hp, Hid; simpl.
    destruct (find_service sid s); [reflexivity|contradiction].
  - intros id H; destruct (create_request_ok _ _ _ _ _ _ H)
      as (sid & t & _ & Hp & Hle & _ & -> & ->).
    split; [reflexivity|]; exists sid, t; repeat split; auto.
    simpl; apply in_or_app; right; left; reflexivity.
Qed.

(** A rating whose ToNumber is NaN (a string that is not a number) passes
    both range comparisons: with a truthy rating and comment, an existing
    service, no earlier review of it by the customer, and a review that the
    Review schema's validation accepts, the review is stored. *)
Theorem nan_rating_accepted (env : AppEnv) (user id : nat) (r c : JsVal) (s : AppStore)
  (svc : ServiceDoc) :
  truthy r = true -> truthy c = true -> to_number env r = None ->
  find_service id s = Some svc ->
  find (fun x => Nat.eqb (rv_service x) id && Nat.eqb (rv_customer x) user) (reviews s)
    = None ->
  review_valid env (mkReview (app_next_id s) id user r c) = true ->
  submitReview env user id r c s
  = (inr tt, bump_app_id (set_reviews s (reviews s ++ [mkReview (app_next_id s) id user r c])%list)).
Proof.
  intros Hr Hc Hn Hf Hnr Hv.
  unfold submitReview, js_lt, js_gt, st_bind, st_get, st_fail, st_put.
  rewrite Hr, Hc, Hn; simpl; rewrite Hf, Hnr, Hv; reflexivity.
Qed.

(** ** Extra theorems: invariants of any sequence of handlers *)

(** Across any sequence of handlers, the stored requests keep their id,
    service, customer and time slot, their status only goes from 'pending'
    to 'accepted' or 'rejected', none is deleted, and new ones are added at
    the end. *)
Theorem request_lifecycle (env : AppEnv) (ops : list AppOp) (s : AppStore) :
  requests_evolve (service_requests s) (service_requests (run_app_ops env ops s)).
Proof. apply ops_requests_evolve. Qed.

(** Across any sequence of handlers, there is at most one bill per request,
    every bill's amount is positive, and every bill's request is stored and
    accepted. *)
Theorem bills_invariant (env : AppEnv) (ops : list AppOp) (s : AppStore) :
  bills_inv s -> bills_inv (run_app_ops env ops s).
Proof. apply ops_preserve; intros; apply op_bills_inv; assumption. Qed.

(** Across any sequence of handlers, a customer reviews a service at most
    once and every stored rating that is a number lies in [1, 5]. *)
Theorem reviews_invariant (env : AppEnv) (ops : list AppOp) (s : AppStore) :
  reviews_inv env s -> reviews_inv env (run_app_ops env ops s).
Proof. apply ops_preserve; intros; apply op_reviews_inv; assumption. Qed.

(** Across any sequence of handlers, emails stay unique and every stored
    password is the hash of a password of at least 8 characters. *)
Theorem users_invariant (env : AppEnv) (ops : list AppOp) (s : AppStore) :
  users_inv env s -> users_inv env (run_app_ops env ops s).
Proof. apply ops_preserve; intros; apply op_users_inv; assumption. Qed.

(** Every handler of the app that fails leaves the store as it was. *)
Theorem app_handlers_fail_without_writes (env : AppEnv) (s : AppStore) :
  (forall b e, fst (register env b s) = inl e -> snd (register env b s) = s) /\
  (forall em pw ip ua e, fst (login env em pw ip ua s) = inl e ->
     snd (login env em pw ip ua s) = s) /\
  (forall u e, fst (logout env u s) = inl e -> snd (logout env u s) = s) /\
  (forall u pw e, fst (resetPassword env u pw s) = inl e ->
     snd (resetPassword env u pw s) = s) /\
  (forall u sid ts e, fst (createServiceRequest env u sid ts s) = inl e ->
     snd (createServiceRequest env u sid ts s) = s) /\
  (forall u id e, fst (acceptRequest u id s) = inl e -> snd (acceptRequest u id s) = s) /\
  (forall u id e, fst (rejectRequest u id s) = inl e -> snd (rejectRequest u id s) = s) /\
  (forall u id a e, fst (generateBill env u id a s) = inl e ->
     snd (generateBill env u id a s) = s) /\
  (forall u id e, fst (deleteService u id s) = inl e -> snd (deleteService u id s) = s) /\
  (forall u id r c e, fst (submitReview env u id r c s) = inl e ->
     snd (submitReview env u id r c s) = s).
Proof. exact (app_failure_no_write env s). Qed.

Lemma sample_bcrypt_sound : bcrypt_sound sample_app_env.
Proof. intros c p; reflexivity. Qed.

Lemma accept_then_decided_witness :
  fst (acceptRequest 9 1 sample_app_store) = inr tt /\
  let s' := snd (acceptRequest 9 1 sample_app_store) in
  acceptRequest 9 1 s' = (inl (AppErr "Request is already accepted" 400), s') /\
  rejectRequest 9 1 s' = (inl (AppErr "Cannot reject accepted request" 400), s').
Proof. split; [reflexivity|apply accept_then_decided; reflexivity]. Defined.

Lemma reject_then_decided_witness :
  fst (rejectRequest 9 1 sample_app_store) = inr tt /\
  let s' := snd (rejectRequest 9 1 sample_app_store) in
  acceptRequest 9 1 s' = (inl (AppErr "Request is already rejected" 400), s') /\
  rejectRequest 9 1 s' = (inl (AppErr "Cannot reject rejected request" 400), s') /\
  (forall a, truthy a = true -> js_le sample_app_env a 0%Q = false ->
     generateBill sample_app_env 9 1 a s'
     = (inl (AppErr "Bill can only be generated for accepted requests" 400), s')).
Proof. split; [reflexivity|apply reject_then_decided; reflexivity]. Defined.

Lemma bill_not_duplicated_witness :
  fst (generateBill sample_app_env 9 1 (JNum 50%Q) sample_accepted_store) = inr 20 /\
  truthy (JNum 70%Q) = true /\ js_le sample_app_env (JNum 70%Q) 0%Q = false /\
  let s' := snd (generateBill sample_app_env 9 1 (JNum 50%Q) sample_accepted_store) in
  generateBill sample_app_env 9 1 (JNum 70%Q) s' = (inl err_bill_exists, s').
Proof.
  split; [vm_compute; reflexivity|split; [reflexivity|split; [reflexivity|]]].
  apply (bill_not_duplicated _ _ _ _ _ _ 20); vm_compute; reflexivity.
Defined.

Lemma deleted_service_strands_requests_witness :
  NoDup (map svc_id (services sample_app_store)) /\
  fst (deleteService 9 3 sample_app_store) = inr tt /\
  find_service_request 1 sample_app_store = Some (mkRequestDoc 1 3 7 2000 pending) /\
  let s' := snd (deleteService 9 3 sample_app_store) in
  find_service_request 1 s' = Some (mkRequestDoc 1 3 7 2000 pending) /\
  forall u, acceptRequest u 1 s' = (inl err_type_error, s') /\
            rejectRequest u 1 s' = (inl err_type_error, s') /\
            (forall a, truthy a = true -> js_le sample_app_env a 0%Q = false ->
               generateBill sample_app_env u 1 a s' = (inl err_type_error, s')).
Proof.
  assert (Hnd : NoDup (map svc_id (services sample_app_store)))
    by (simpl; constructor; [intros []|constructor]).
  split; [exact Hnd|split; [reflexivity|split; [reflexivity|]]].
  apply (deleted_service_strands_requests sample_app_env 9 3 1 sample_app_store
           (mkRequestDoc 1 3 7 2000 pending) Hnd); reflexivity.
Defined.

Lemma register_then_login_witness :
  bcrypt_sound sample_app_env /\
  fst (register sample_app_env sample_register_body sample_app_store) = inr 20 /\
  rb_password sample_register_body = JStr "password1" /\
  let s' := snd (register sample_app_env sample_register_body sample_app_store) in
  exists u, u_id u = 20 /\ In u (users s') /\
    forall ip ua,
      fst (login sample_app_env (rb_email sample_register_body) (JStr "password1") ip ua s')
      = inr (jwt_sign sample_app_env u, u) /\
      (forall q, q <> "password1" -> q <> "" ->
         login sample_app_env (rb_email sample_register_body) (JStr q) ip ua s'
         = (inl err_incorrect_login, s')).
Proof.
  split; [exact sample_bcrypt_sound|split; [vm_compute; reflexivity|split; [reflexivity|]]].
  apply register_then_login; [exact sample_bcrypt_sound|vm_compute; reflexivity|reflexivity].
Defined.

Lemma register_twice_refused_witness :
  fst (register sample_app_env sample_register_body sample_app_store) = inr 20 /\
  let s' := snd (register sample_app_env sample_register_body sample_app_store) in
  register sample_app_env sample_register_body s' = (inl err_user_exists, s').
Proof.
  split; [vm_compute; reflexivity|].
  apply (register_twice_refused _ _ _ 20); vm_compute; reflexivity.
Defined.

Lemma reset_then_login_witness :
  bcrypt_sound sample_app_env /\ NoDup (map u_id (users sample_registered_store)) /\
  truthy (JStr "ann@x.io") = true /\
  find (has_email sample_app_env (JStr "ann@x.io")) (users sample_registered_store)
    = Some sample_user /\
  fst (resetPassword sample_app_env (u_id sample_user) (JStr "secret123")
         sample_registered_store) = inr tt /\
  let s' := snd (resetPassword sample_app_env (u_id sample_user) (JStr "secret123")
                   sample_registered_store) in
  let u' := set_user_password sample_user (bcrypt_hash sample_app_env "secret123") in
  forall ip ua,
    fst (login sample_app_env (JStr "ann@x.io") (JStr "secret123") ip ua s')
    = inr (jwt_sign sample_app_env u', u') /\
    (forall q, q <> "secret123" -> q <> "" ->
       login sample_app_env (JStr "ann@x.io") (JStr q) ip ua s'
       = (inl err_incorrect_login, s')).
Proof.
  assert (Hnd : NoDup (map u_id (users sample_registered_store)))
    by (vm_compute; constructor; [intros []|constructor]).
  split; [exact sample_bcrypt_sound|split; [exact Hnd|]].
  split; [reflexivity|split; [vm_compute; reflexivity|split; [vm_compute; reflexivity|]]].
  apply reset_then_login; [exact sample_bcrypt_sound|exact Hnd|reflexivity|
                           vm_compute; reflexivity|discriminate|vm_compute; reflexivity].
Defined.

Lemma login_failures_witness :
  truthy (JStr "bob@x.io") = true /\ truthy (JNum 5%Q) = true /\
  (find (has_email sample_app_env (JStr "bob@x.io")) (users sample_registered_store) = None ->
     login sample_app_env (JStr "bob@x.io") (JNum 5%Q) "10.0.0.1" None sample_registered_store
     = (inl err_incorrect_login, sample_registered_store)) /\
  (forall u p, find (has_email sample_app_env (JStr "bob@x.io")) (users sample_registered_store)
                 = Some u -> JNum 5%Q = JStr p ->
     bcrypt_compare sample_app_env p (u_password u) = false ->
     login sample_app_env (JStr "bob@x.io") (JNum 5%Q) "10.0.0.1" None sample_registered_store
     = (inl err_incorrect_login, sample_registered_store)) /\
  (forall u, find (has_email sample_app_env (JStr "bob@x.io")) (users sample_registered_store)
               = Some u -> (forall p, JNum 5%Q <> JStr p) ->
     login sample_app_env (JStr "bob@x.io") (JNum 5%Q) "10.0.0.1" None sample_registered_store
     = (inl err_bcrypt_args, sample_registered_store)).
Proof. split; [reflexivity|split; [reflexivity|apply login_failures; reflexivity]]. Defined.

Lemma login_opens_session_witness :
  session_active_default sample_app_env = true /\
  fst (login sample_app_env (JStr "ann@x.io") (JStr "password1") "10.0.0.1" None
         sample_registered_store) = inr ("token", sample_user) /\
  let s' := snd (login sample_app_env (JStr "ann@x.io") (JStr "password1") "10.0.0.1" None
                   sample_registered_store) in
  active_sessions (u_id sample_user) (sessions s')
  = S (active_sessions (u_id sample_user) (sessions sample_registered_store)) /\
  forall v, v <> u_id sample_user ->
    active_sessions v (sessions s') = active_sessions v (sessions sample_registered_store).
Proof.
  split; [reflexivity|split; [vm_compute; reflexivity|]].
  apply (login_opens_session _ _ _ _ _ _ "token"); [reflexivity|vm_compute; reflexivity].
Defined.

Lemma createServiceRequest_time_checks_witness :
  truthy (JStr "svc") = true /\ truthy (JNum 5%Q) = true /\
  (forall t, parse_date sample_app_env (JNum 5%Q) = Some t -> (t < now sample_app_env)%Z ->
     createServiceRequest sample_app_env 7 (JStr "svc") (JNum 5%Q) sample_app_store
     = (inl (AppErr "Time slot must be in the future" 400), sample_app_store)) /\
  (parse_date sample_app_env (JNum 5%Q) = None -> forall sid,
     to_object_id sample_app_env (JStr "svc") = Some sid ->
     find_service sid sample_app_store <> None ->
     createServiceRequest sample_app_env 7 (JStr "svc") (JNum 5%Q) sample_app_store
     = (inl err_validation, sample_app_store)) /\
  (forall id, fst (createServiceRequest sample_app_env 7 (JStr "svc") (JNum 5%Q)
                     sample_app_store) = inr id ->
     id = app_next_id sample_app_store /\
     exists sid t, parse_date sample_app_env (JNum 5%Q) = Some t /\
       (now sample_app_env <= t)%Z /\
       In (mkRequestDoc id sid 7 t pending)
          (service_requests (snd (createServiceRequest sample_app_env 7 (JStr "svc")
                                    (JNum 5%Q) sample_app_store)))).
Proof. split; [reflexivity|split; [reflexivity|apply createServiceRequest_time_checks; reflexivity]]. Defined.

Lemma nan_rating_accepted_witness :
  to_number sample_app_env (JStr "abc") = None /\
  submitReview sample_app_env 7 3 (JStr "abc") (JStr "ok") sample_app_store
  = (inr tt, bump_app_id (set_reviews sample_app_store
       (reviews sample_app_store ++
          [mkReview (app_next_id sample_app_store) 3 7 (JStr "abc") (JStr "ok")])%list)).
Proof.
  split; [reflexivity|].
  apply (nan_rating_accepted sample_app_env 7 3 _ _ _ (mkServiceDoc 3 9)); reflexivity.
Defined.

Lemma bills_invariant_witness :
  bills_inv sample_app_store /\
  bills_inv (run_app_ops sample_app_env sample_ops sample_app_store).
Proof.
  assert (H : bills_inv sample_app_store) by (repeat split; constructor).
  split; [exact H|apply bills_invariant; exact H].
Defined.

Lemma reviews_invariant_witness :
  reviews_inv sample_app_env sample_app_store /\
  reviews_inv sample_app_env (run_app_ops sample_app_env sample_ops sample_app_store).
Proof.
  assert (H : reviews_inv sample_app_env sample_app_store) by (split; constructor).
  split; [exact H|apply reviews_invariant; exact H].
Defined.

Lemma users_invariant_witness :
  users_inv sample_app_env sample_app_store /\
  users_inv sample_app_env (run_app_ops sample_app_env sample_ops sample_app_store).
Proof.
  assert (H : users_inv sample_app_env sample_app_store) by (split; constructor).
  split; [exact H|apply users_invariant; exact H].
Defined.

